(** * AutoCleanX: the column inference and cleaning engine

    A shallow embedding of [src/services/dataProcessor.ts] and of the
    declarations of [types.ts] it uses, followed by the properties of the
    engine.

    Conventions of the embedding.

    - A JavaScript number is an IEEE 754 binary64 value: Rocq's primitive
      [float], so that [+], [/], [<] and [NaN] are the machine's.  Array
      lengths and occurrence counts are natural numbers; they are turned
      into a [float] where the source divides or stores them (exact below
      2^53).
    - A JavaScript string is a [string]: one [ascii] per code unit, read in
      the Latin-1 range (code unit 160 is the no-break space).
    - A cell is a string, a number, null or undefined, as [TableRow]
      declares, or a boolean, which the parser's dynamic typing also
      produces.
    - An object used as a record ([TableRow], the [counts] tally) is an
      association list kept in the order [Object.keys] enumerates: array
      index keys first, ascending, then the other keys by first insertion.
      A read of [row[header]] finds an own property only.  The tally is a
      plain object literal: a read of [counts[k]] that finds no own
      property falls through to [Object.prototype], and what it finds
      there need not be a number.
    - Built-ins whose result is not fixed by a few lines of ECMAScript
      (numeric literal parsing, date parsing and the local calendar, number
      printing, the members of [Object.prototype] and their text) are
      fields of the class [JsHost]; the engine is generic in it. *)

From Stdlib Require Import String Ascii List Bool Arith ZArith Lia.
From Stdlib Require Import PrimFloat FloatOps SpecFloat.
From Stdlib Require Import Permutation Sorted.
Import ListNotations.

Local Open Scope string_scope.
Local Open Scope list_scope.
Local Open Scope nat_scope.

(** ** Cells and the language's primitive operations *)

Module Js.

(** [string | number | null | undefined], and the booleans of dynamic
    typing. *)
Inductive Value : Type :=
| VNull
| VUndefined
| VBool (b : bool)
| VNum (n : float)
| VStr (s : string).

Definition NaN : float := PrimFloat.nan.

(** [isNaN] on a number. *)
Definition isNaN (x : float) : bool := PrimFloat.is_nan x.

(** The number of a length or of a count. *)
Fixpoint ofPos (p : positive) : float :=
  match p with
  | xH => 1
  | xO q => ofPos q * 2
  | xI q => ofPos q * 2 + 1
  end%float.

Definition ofZ (z : Z) : float :=
  match z with
  | Z0 => 0%float
  | Zpos p => ofPos p
  | Zneg p => (- ofPos p)%float
  end.

Definition ofNat (n : nat) : float := ofZ (Z.of_nat n).

(** [a === b] *)
Definition strictEq (a b : Value) : bool :=
  match a, b with
  | VNull, VNull => true
  | VUndefined, VUndefined => true
  | VBool p, VBool q => Bool.eqb p q
  | VNum x, VNum y => PrimFloat.eqb x y
  | VStr s, VStr t => String.eqb s t
  | _, _ => false
  end.

(** SameValueZero, the equality of [Set]: as [===] but NaN equals NaN. *)
Definition sameValueZero (a b : Value) : bool :=
  match a, b with
  | VNum x, VNum y => PrimFloat.eqb x y || (isNaN x && isNaN y)
  | _, _ => strictEq a b
  end.

(** ToBoolean: the falsy cells are null, undefined, false, the empty
    string, both zeros and NaN. *)
Definition truthy (v : Value) : bool :=
  match v with
  | VNull | VUndefined => false
  | VBool b => b
  | VNum x => negb (PrimFloat.eqb x 0 || isNaN x)
  | VStr s => negb (String.eqb s "")
  end.

(** WhiteSpace and LineTerminator code units below 256: TAB, LF, VT, FF,
    CR, SP and NBSP.  These are the code units [trim] strips and [\s]
    matches. *)
Definition isWhiteSpace (c : ascii) : bool :=
  let n := nat_of_ascii c in
  ((9 <=? n) && (n <=? 13)) || (n =? 32) || (n =? 160).

Fixpoint trimStart (s : string) : string :=
  match s with
  | EmptyString => EmptyString
  | String c r => if isWhiteSpace c then trimStart r else s
  end.

Fixpoint trimEnd (s : string) : string :=
  match s with
  | EmptyString => EmptyString
  | String c r =>
      let r' := trimEnd r in
      if isWhiteSpace c && String.eqb r' "" then EmptyString else String c r'
  end.

(** [s.trim()] *)
Definition trim (s : string) : string := trimEnd (trimStart s).

(** [new Set(xs).size] *)
Fixpoint setAdd (seen : list Value) (v : Value) : list Value :=
  match seen with
  | [] => [v]
  | w :: r => if sameValueZero w v then seen else w :: setAdd r v
  end.

Definition setOf (xs : list Value) : list Value := fold_left setAdd xs [].

Definition setSize (xs : list Value) : nat := length (setOf xs).

(** *** Objects as ordered records *)

(** The canonical numeric strings of the array indices 0 .. 2^32 - 2. *)
Definition isDigit (c : ascii) : bool :=
  let n := nat_of_ascii c in (48 <=? n) && (n <=? 57).

Fixpoint digitsValue (acc : N) (s : string) : option N :=
  match s with
  | EmptyString => Some acc
  | String c r =>
      if isDigit c
      then digitsValue (acc * 10 + (N_of_ascii c - 48)) r
      else None
  end.

Definition arrayIndex (k : string) : option N :=
  match k with
  | EmptyString => None
  | String c r =>
      if Ascii.eqb c "0" && negb (String.eqb r "") then None
      else if 10 <? String.length k then None
      else match digitsValue 0 k with
           | Some n => if (n <? 4294967295)%N then Some n else None
           | None => None
           end
  end.

Definition Obj (A : Type) : Type := list (string * A).

(** [Object.keys(o)] *)
Definition keys {A} (o : Obj A) : list string := map fst o.

(** [o[k]] on an own property; [None] is [undefined]. *)
Fixpoint lookup {A} (o : Obj A) (k : string) : option A :=
  match o with
  | [] => None
  | (k', v) :: r => if String.eqb k' k then Some v else lookup r k
  end.

(** Where a fresh key lands in the enumeration order. *)
Fixpoint insertIndex {A} (o : Obj A) (n : N) (k : string) (v : A) : Obj A :=
  match o with
  | [] => [(k, v)]
  | (k', v') :: r =>
      match arrayIndex k' with
      | Some m => if (m <? n)%N then (k', v') :: insertIndex r n k v
                  else (k, v) :: o
      | None => (k, v) :: o
      end
  end.

Fixpoint replace {A} (o : Obj A) (k : string) (v : A) : Obj A :=
  match o with
  | [] => []
  | (k', v') :: r =>
      if String.eqb k' k then (k', v) :: r else (k', v') :: replace r k v
  end.

(** [o[k] = v] *)
Definition assign {A} (o : Obj A) (k : string) (v : A) : Obj A :=
  match lookup o k with
  | Some _ => replace o k v
  | None =>
      match arrayIndex k with
      | Some n => insertIndex o n k v
      | None => o ++ [(k, v)]
      end
  end.

(** *** What a plain object inherits *)

(** A member of [Object.prototype], by the string it turns into as an
    operand of [+] or [>].  A method ([constructor], [toString], ...) is a
    writable data property: an assignment under its name through an
    inheriting object creates an own property.  An accessor ([__proto__])
    hands an assigned value to its setter, which ignores a value that is
    not an object: no own property is created. *)
Inductive Inherited : Type :=
| InheritedMethod (text : string)
| InheritedAccessor (text : string).

Definition inheritedText (m : Inherited) : string :=
  match m with
  | InheritedMethod text => text
  | InheritedAccessor text => text
  end.

End Js.

(** ** The built-ins left to the host *)

Class JsHost : Type := {
  (** [Number(s)] on a string already stripped of surrounding white space
      and not empty: the value of the StringNumericLiteral, NaN when [s] is
      none. *)
  StrNumericLiteral : string -> float;
  (** [Date.parse(s)]: a time value, NaN when [s] is not recognised. *)
  Date_parse : string -> float;
  (** [getFullYear()], [getMonth()] and [getDate()] of the date with a
      given (valid) time value, in the host's local time zone. *)
  getFullYear : float -> float;
  getMonth : float -> float;
  getDate : float -> float;
  (** [String(x)] on a number. *)
  NumberToString : float -> string;
  (** [x.toFixed(2)] *)
  toFixed2 : float -> string;
  (** [Object.prototype[k]]: the member under the name [k], [None] when
      there is none. *)
  prototypeMember : string -> option Js.Inherited;
  (** No member of [Object.prototype] has the empty name: [counts['']],
      the first read of the reduction, is [undefined]. *)
  prototype_no_empty_name : prototypeMember "" = None;
  (** [Date.parse] recognises no accessor name of [Object.prototype]: the
      name of [__proto__] is no date. *)
  prototype_accessor_no_date :
    forall k text,
      prototypeMember k = Some (Js.InheritedAccessor text) ->
      Js.isNaN (Date_parse k) = true
}.

(** ** types.ts *)

Module Types.
Import Js.

(** [Record<string, string | number | null | undefined>], as a value of
    what the parser hands over. *)
Definition TableRow : Type := Obj Value.

Inductive ColumnType : Type :=
| NUMERIC
| CATEGORICAL
| DATE
| TEXT
| UNKNOWN.

(** Every field is optional; [stats: {}] is [noStats]. *)
Record ColumnStats : Type := {
  mean : option float;
  median : option float;
  stdDev : option float;
  min : option float;
  max : option float;
  mode : option string;
  uniqueValues : option nat
}.

Record ColumnAnalysis : Type := {
  name : string;
  type : ColumnType;
  missingCount : nat;
  stats : ColumnStats
}.

Record CleaningAction : Type := {
  column : string;
  action : string;
  details : string
}.

Record FeatureEngineeringInfo : Type := {
  sourceColumn : string;
  newColumns : list string;
  description : string
}.

Record AnalysisReport : Type := {
  fileName : string;
  initialRows : nat;
  cleanedRows : nat;
  initialCols : nat;
  cleanedCols : nat;
  processingTime : float;
  columnAnalyses : list ColumnAnalysis;
  cleaningActions : list CleaningAction;
  featureEngineering : list FeatureEngineeringInfo
}.

End Types.

(** ** services/dataProcessor.ts *)

Module DataProcessor.
Import Js Types.

(** What the promise of an [async] function settles to. *)
Inductive Thrown : Type :=
| NewError (message : string)     (* [new Error(message)] made by this module *)
| HostError (message : string).   (* an error object handed over by the parser *)

Inductive Promise (A : Type) : Type :=
| Resolved (a : A)
| Rejected (e : Thrown).
Arguments Resolved {A} a.
Arguments Rejected {A} e.

(** What PapaParse reports for a file under the configuration of
    [parseCSV] (header row, empty lines skipped, dynamic typing): either
    the [complete] callback with [results.data] and the messages of
    [results.errors], or the [error] callback. *)
Inductive PapaOutcome : Type :=
| Complete (data : list TableRow) (errors : list string)
| Failed (error : string).

Record File : Type := {
  file_name : string;
  papa : PapaOutcome
}.

(** The working state of the loop over the headers. *)
Record State : Type := {
  cleanedData : list TableRow;
  st_columnAnalyses : list ColumnAnalysis;
  st_cleaningActions : list CleaningAction;
  st_featureEngineering : list FeatureEngineeringInfo
}.

Definition noStats : ColumnStats :=
  {| mean := None; median := None; stdDev := None; min := None; max := None;
     mode := None; uniqueValues := None |}.

(** [row[header]] *)
Definition cell (row : TableRow) (header : string) : Value :=
  match lookup row header with
  | Some v => v
  | None => VUndefined
  end.

(** [v === null || v === undefined || v === ''] *)
Definition isMissing (v : Value) : bool :=
  strictEq v VNull || strictEq v VUndefined || strictEq v (VStr "").

(** [v !== null && v !== undefined && v !== ''] *)
Definition notMissing (v : Value) : bool :=
  negb (strictEq v VNull) && negb (strictEq v VUndefined)
  && negb (strictEq v (VStr "")).

(** TimeClip: the time value of [new Date(x)] for a number [x]. *)
Definition TimeClip (x : float) : float :=
  if negb (PrimFloat.is_finite x) then NaN
  else if (8.64e15 <? abs x)%float then NaN
  else
    let a := abs x in
    let t :=
      if (a <? 4503599627370496)%float then
        let r := (a + 4503599627370496 - 4503599627370496)%float in
        if (a <? r)%float then (r - 1)%float else r
      else a in
    ((if (x <? 0)%float then - t else t) + 0)%float.

(** [x || 0] on a number. *)
Definition orZero (x : float) : float :=
  if PrimFloat.eqb x 0 || isNaN x then 0%float else x.

(** A read that may be [undefined], used as an operand of [+]. *)
Definition operand (o : option float) : float :=
  match o with
  | Some x => x
  | None => NaN
  end.

(** [xs[i]] *)
Definition at_ {A} (xs : list A) (i : Z) : option A :=
  if (i <? 0)%Z then None else nth_error xs (Z.to_nat i).

(** [xs.sort((a, b) => a - b)]: the sort is stable and the comparator is
    consistent on numbers that are not NaN, which is all it is given. *)
Fixpoint sortInsert (x : float) (sorted : list float) : list float :=
  match sorted with
  | [] => [x]
  | y :: r => if (y - x <? 0)%float then y :: sortInsert x r else x :: sorted
  end.

Definition sortNumbers (xs : list float) : list float :=
  fold_right sortInsert [] xs.

(** [text.split(/\s+/)]; [skipping] holds inside a run of white space. *)
Fixpoint splitWs (skipping : bool) (s : string) : list string :=
  match s with
  | EmptyString => [EmptyString]
  | String c r =>
      if isWhiteSpace c then
        if skipping then splitWs true r else EmptyString :: splitWs true r
      else
        match splitWs false r with
        | p :: ps => String c p :: ps
        | [] => [String c EmptyString]
        end
  end.

(** [text.split(/\s+/).filter(Boolean).length] *)
Definition wordCount (text : string) : nat :=
  length (filter (fun p => negb (String.eqb p "")) (splitWs false text)).

(** [JSON.parse(JSON.stringify(rawData))]: a property holding [undefined]
    is left out, a number that is not finite becomes [null], minus zero is
    printed as 0. *)
Definition jsonCell (kv : string * Value) : list (string * Value) :=
  match snd kv with
  | VUndefined => []
  | VNum x =>
      if PrimFloat.is_finite x
      then [(fst kv, VNum (if PrimFloat.eqb x 0 then 0%float else x))]
      else [(fst kv, VNull)]
  | v => [(fst kv, v)]
  end.

Definition jsonRow (row : TableRow) : TableRow := flat_map jsonCell row.

Definition deepCopy (rows : list TableRow) : list TableRow := map jsonRow rows.

(** What the [counts] object holds under a key: a number, until a read
    that fell through to [Object.prototype] has turned it into a string. *)
Inductive Count : Type :=
| CNum (n : nat)
| CText (s : string).

(** What a read of [counts[k]] yields. *)
Inductive Reading : Type :=
| Undefined
| Stored (c : Count)
| Member (text : string).

Section Engine.
Context {host : JsHost}.

(** [Number(v)] *)
Definition Number (v : Value) : float :=
  match v with
  | VNull => 0%float
  | VUndefined => NaN
  | VBool b => if b then 1%float else 0%float
  | VNum x => x
  | VStr s =>
      let t := trim s in
      if String.eqb t "" then 0%float else StrNumericLiteral t
  end.

(** The time value of [new Date(v)]. *)
Definition newDate (v : Value) : float :=
  match v with
  | VStr s => Date_parse s
  | _ => TimeClip (Number v)
  end.

(** [String(v)] *)
Definition String_ (v : Value) : string :=
  match v with
  | VNull => "null"
  | VUndefined => "undefined"
  | VBool b => if b then "true" else "false"
  | VNum x => NumberToString x
  | VStr s => s
  end.

Definition parseCSV (file : File) : Promise (list TableRow) :=
  match papa file with
  | Complete data errors =>
      match errors with
      | message :: _ => Rejected (NewError ("CSV Parsing Error: " ++ message)%string)
      | [] => Resolved data
      end
  | Failed error => Rejected (HostError error)
  end.

Definition numericLooking (v : Value) : bool :=
  match v with
  | VNum _ => true
  | VStr s => negb (isNaN (Number v)) && negb (String.eqb (trim s) "")
  | _ => false
  end.

Definition dateLooking (v : Value) : bool :=
  match v with
  | VStr s => negb (isNaN (Date_parse s))
  | _ => false
  end.

Definition inferColumnType (values : list Value) : ColumnType :=
  let nonNullValues := filter notMissing values in
  if length nonNullValues =? 0 then UNKNOWN else
  let isNumeric := forallb numericLooking nonNullValues in
  if isNumeric then NUMERIC else
  let isDate := forallb dateLooking nonNullValues in
  if isDate then DATE else
  let uniqueRatio :=
    (ofNat (setSize nonNullValues) / ofNat (length nonNullValues))%float in
  if (uniqueRatio <? 0.5)%float && (10 <? length nonNullValues)
  then CATEGORICAL
  else TEXT.

(** *** One turn of the loop over the headers *)

(** [values.map(v => Number(v)).filter(v => !isNaN(v))] *)
Definition numericValuesOf (values : list Value) : list float :=
  filter (fun x => negb (isNaN x)) (map Number values).

(** [values.filter(v => typeof v === 'string' && v.trim() !== '')] *)
Definition stringValuesOf (values : list Value) : list string :=
  flat_map
    (fun v =>
       match v with
       | VStr s => if negb (String.eqb (trim s) "") then [s] else []
       | _ => []
       end)
    values.

(** [values.filter(v => v === null || v === undefined || v === '').length] *)
Definition missingCountOf (values : list Value) : nat :=
  length (filter isMissing values).

(** [sum / numericValues.length || 0] *)
Definition meanOf (numericValues : list float) : float :=
  let sum := fold_left PrimFloat.add numericValues 0%float in
  orZero (sum / ofNat (length numericValues))%float.

Definition numericStats (numericValues : list float) : ColumnStats :=
  let mean := meanOf numericValues in
  let sorted := sortNumbers numericValues in
  let len := Z.of_nat (length sorted) in
  let median :=
    if (len mod 2 =? 0)%Z
    then Some ((operand (at_ sorted (len / 2 - 1))
                + operand (at_ sorted (len / 2))) / 2)%float
    else at_ sorted (len / 2) in
  {| mean := Some mean; median := median; stdDev := None;
     min := at_ sorted 0; max := at_ sorted (len - 1);
     mode := None; uniqueValues := None |}.

(** [counts[k]] on the plain object [counts]: an own property, else the
    member of [Object.prototype] under that name, else [undefined]. *)
Definition readCount (counts : Obj Count) (k : string) : Reading :=
  match lookup counts k with
  | Some c => Stored c
  | None =>
      match prototypeMember k with
      | Some m => Member (inheritedText m)
      | None => Undefined
      end
  end.

(** [(r || 0) + 1].  A stored number [n] is [n || 0]; a string stands
    unless it is empty; an inherited member is an object, which stands and
    is turned into its text by [+]. *)
Definition nextCount (r : Reading) : Count :=
  match r with
  | Undefined => CNum (0 + 1)
  | Stored (CNum n) => CNum (n + 1)
  | Stored (CText s) =>
      if String.eqb s "" then CNum (0 + 1) else CText (s ++ "1")%string
  | Member text => CText (text ++ "1")%string
  end.

(** [counts[k] = c], for a [c] that is not an object. *)
Definition writeCount (counts : Obj Count) (k : string) (c : Count)
  : Obj Count :=
  match lookup counts k with
  | Some _ => assign counts k c
  | None =>
      match prototypeMember k with
      | Some (InheritedAccessor _) => counts
      | _ => assign counts k c
      end
  end.

(** [stringValues.forEach(v => { counts[v] = (counts[v] || 0) + 1; })] *)
Definition tallyStep (counts : Obj Count) (v : string) : Obj Count :=
  writeCount counts v (nextCount (readCount counts v)).

Definition tally (stringValues : list string) : Obj Count :=
  fold_left tallyStep stringValues [].

(** The primitive an operand of [>] is compared by: a number, or a
    string. *)
Definition primitive (r : Reading) : option (nat + string) :=
  match r with
  | Undefined => None
  | Stored (CNum n) => Some (inl n)
  | Stored (CText s) => Some (inr s)
  | Member text => Some (inr text)
  end.

(** [counts[a] > counts[b]]: two strings are compared by code units;
    otherwise both sides are turned into numbers, and a comparison with
    NaN, which [undefined] turns into, is false. *)
Definition countGt (counts : Obj Count) (a b : string) : bool :=
  match primitive (readCount counts a), primitive (readCount counts b) with
  | Some (inl x), Some (inl y) => y <? x
  | Some (inr s), Some (inr t) => String.ltb t s
  | Some (inl x), Some (inr t) => (Number (VStr t) <? ofNat x)%float
  | Some (inr s), Some (inl y) => (ofNat y <? Number (VStr s))%float
  | _, _ => false
  end.

(** [Object.keys(counts).reduce((a, b) => counts[a] > counts[b] ? a : b, '')] *)
Definition modeOf (stringValues : list string) : string :=
  let counts := tally stringValues in
  fold_left (fun a b => if countGt counts a b then a else b) (keys counts) "".

(** [new Set(stringValues).size] *)
Definition uniqueCount (stringValues : list string) : nat :=
  setSize (map VStr stringValues).

Definition modeStats (stringValues : list string) : ColumnStats :=
  {| mean := None; median := None; stdDev := None; min := None; max := None;
     mode := Some (modeOf stringValues);
     uniqueValues := Some (uniqueCount stringValues) |}.

Definition textStats (stringValues : list string) : ColumnStats :=
  {| mean := None; median := None; stdDev := None; min := None; max := None;
     mode := None; uniqueValues := Some (uniqueCount stringValues) |}.

(** The body of the two imputing [forEach] loops. *)
Definition imputeRow (header : string) (fill : Value) (row : TableRow)
  : TableRow :=
  if isMissing (cell row header) then assign row header fill else row.

Definition impute (header : string) (fill : Value) (rows : list TableRow)
  : list TableRow :=
  map (imputeRow header fill) rows.

Definition dateColumns (header : string) : list string :=
  [header ++ "_year"; header ++ "_month"; header ++ "_day"]%string.

Definition textColumns (header : string) : list string :=
  [header ++ "_length"; header ++ "_word_count"]%string.

Definition dateFeaturesRow (header : string) (row : TableRow) : TableRow :=
  let date := newDate (cell row header) in
  if negb (isNaN date) then
    let row1 := assign row (header ++ "_year")%string (VNum (getFullYear date)) in
    let row2 := assign row1 (header ++ "_month")%string (VNum (getMonth date + 1)) in
    assign row2 (header ++ "_day")%string (VNum (getDate date))
  else row.

Definition textFeaturesRow (header : string) (row : TableRow) : TableRow :=
  let v := cell row header in
  let text := String_ (if truthy v then v else VStr "") in
  let row1 := assign row (header ++ "_length")%string (VNum (ofNat (String.length text))) in
  assign row1 (header ++ "_word_count")%string (VNum (ofNat (wordCount text))).

(** The analysis, the imputed rows and the log entry, if any, of one column. *)
Definition analyzeAndClean (header : string) (rows : list TableRow)
  : ColumnAnalysis * list TableRow * list CleaningAction :=
  let values := map (fun row => cell row header) rows in
  let type := inferColumnType values in
  let numericValues := numericValuesOf values in
  let stringValues := stringValuesOf values in
  let missingCount := missingCountOf values in
  let analysis stats :=
    {| name := header; type := type; missingCount := missingCount;
       stats := stats |} in
  match type with
  | NUMERIC =>
      let stats := numericStats numericValues in
      let mean := meanOf numericValues in
      if 0 <? missingCount then
        (analysis stats, impute header (VNum mean) rows,
         [{| column := header; action := "Filled missing values";
             details := ("Used mean (" ++ toFixed2 mean ++ ")")%string |}])
      else (analysis stats, rows, [])
  | CATEGORICAL | DATE =>
      let mode := modeOf stringValues in
      if 0 <? missingCount then
        (analysis (modeStats stringValues), impute header (VStr mode) rows,
         [{| column := header; action := "Filled missing values";
             details := ("Used mode ('" ++ mode ++ "')")%string |}])
      else (analysis (modeStats stringValues), rows, [])
  | TEXT => (analysis (textStats stringValues), rows, [])
  | UNKNOWN => (analysis noStats, rows, [])
  end.

(** The rows after feature engineering and its log entry, if any. *)
Definition engineer (header : string) (type : ColumnType)
  (rows : list TableRow) : list TableRow * list FeatureEngineeringInfo :=
  match type with
  | DATE =>
      (map (dateFeaturesRow header) rows,
       [{| sourceColumn := header; newColumns := dateColumns header;
           description := "Extracted date parts" |}])
  | TEXT =>
      (map (textFeaturesRow header) rows,
       [{| sourceColumn := header; newColumns := textColumns header;
           description := "Calculated text metrics" |}])
  | _ => (rows, [])
  end.

(** The body of [for (const header of headers)]. *)
Definition processColumn (st : State) (header : string) : State :=
  let '(analysis, cleaned, actions) := analyzeAndClean header (cleanedData st) in
  let '(engineered, infos) := engineer header (type analysis) cleaned in
  {| cleanedData := engineered;
     st_columnAnalyses := st_columnAnalyses st ++ [analysis];
     st_cleaningActions := st_cleaningActions st ++ actions;
     st_featureEngineering := st_featureEngineering st ++ infos |}.

(** [Object.keys(cleanedData[0]).length]; the first row exists when the
    source reaches this line. *)
Definition firstRowKeys (rows : list TableRow) : list string :=
  match rows with
  | row :: _ => keys row
  | [] => []
  end.

(** [processData]; [startTime] and [endTime] are the two readings of
    [performance.now()]. *)
Definition processData (file : File) (startTime endTime : float)
  : Promise (AnalysisReport * list TableRow) :=
  match parseCSV file with
  | Rejected e => Rejected e
  | Resolved rawData =>
      let initialRows := length rawData in
      if initialRows =? 0
      then Rejected (NewError "CSV file is empty or contains only headers.")
      else
        let headers := firstRowKeys rawData in
        let initialCols := length headers in
        let st0 :=
          {| cleanedData := deepCopy rawData; st_columnAnalyses := [];
             st_cleaningActions := []; st_featureEngineering := [] |} in
        let st := fold_left processColumn headers st0 in
        let report :=
          {| fileName := file_name file;
             initialRows := initialRows;
             cleanedRows := length (cleanedData st);
             initialCols := initialCols;
             cleanedCols := length (firstRowKeys (cleanedData st));
             processingTime := ((endTime - startTime) / 1000)%float;
             columnAnalyses := st_columnAnalyses st;
             cleaningActions := st_cleaningActions st;
             featureEngineering := st_featureEngineering st |} in
        Resolved (report, cleanedData st)
  end.

End Engine.
End DataProcessor.

(** ** The components that read the report

    The pure computations of [App.tsx] and of the components: what is
    shown or named, not how it is drawn. *)

Module Components.
Import Js Types DataProcessor.

(** The enums [AppState] and [ModelType] of types.ts. *)
Inductive AppState : Type :=
| READY_TO_UPLOAD
| PROCESSING
| REPORT_READY
| ERROR.

Inductive ModelType : Type :=
| REGRESSION
| CLASSIFICATION
| CLUSTERING.

(** The string a [ColumnType] is, as a template prints it. *)
Definition ColumnType_text (t : ColumnType) : string :=
  match t with
  | NUMERIC => "Numeric"
  | CATEGORICAL => "Categorical"
  | DATE => "Date"
  | TEXT => "Text"
  | UNKNOWN => "Unknown"
  end.

(** [a ?? b] *)
Definition nullish (a b : Value) : Value :=
  match a with
  | VNull | VUndefined => b
  | _ => a
  end.

(** An optional field, read. *)
Definition field {A : Type} (inject : A -> Value) (o : option A) : Value :=
  match o with
  | Some x => inject x
  | None => VUndefined
  end.

(** *** components/charts/MissingValuesChart.tsx *)

Record ChartDatum : Type := {
  datum_name : string;
  missingValues : nat
}.

(** [(a, b) => b['Missing Values'] - a['Missing Values']] *)
Definition byMissingDescending (a b : ChartDatum) : Z :=
  (Z.of_nat (missingValues b) - Z.of_nat (missingValues a))%Z.

(** [xs.sort(byMissingDescending)]; the sort is stable. *)
Fixpoint chartInsert (x : ChartDatum) (sorted : list ChartDatum)
  : list ChartDatum :=
  match sorted with
  | [] => [x]
  | y :: r =>
      if (byMissingDescending y x <? 0)%Z then y :: chartInsert x r
      else x :: sorted
  end.

Definition chartSort (xs : list ChartDatum) : list ChartDatum :=
  fold_right chartInsert [] xs.

Definition chartData (data : list ColumnAnalysis) : list ChartDatum :=
  chartSort
    (map (fun col => {| datum_name := name col;
                        missingValues := missingCount col |})
       (filter (fun col => 0 <? missingCount col) data)).

(** Whether the chart gives way to "No missing values found." *)
Definition chartIsEmpty (data : list ColumnAnalysis) : bool :=
  length (chartData data) =? 0.

(** *** components/ReportView.tsx *)

(** [report.columnAnalyses.reduce((acc, col) => acc + col.missingCount, 0)],
    the number on the card "Missing Values Found". *)
Definition missingValuesFound (report : AnalysisReport) : nat :=
  fold_left (fun acc col => acc + missingCount col) (columnAnalyses report) 0.

(** *** components/DownloadButtons.tsx *)

(** [s.replace(pattern, replacement)] for a string pattern and a
    replacement without [$]: the first occurrence is replaced. *)
Fixpoint replaceFirst (pattern replacement s : string) : string :=
  if String.prefix pattern s
  then (replacement
        ++ substring (String.length pattern)
             (String.length s - String.length pattern) s)%string
  else
    match s with
    | EmptyString => EmptyString
    | String c r => String c (replaceFirst pattern replacement r)
    end.

(** The [download] attribute of the two links. *)
Definition csvDownloadName (report : AnalysisReport) : string :=
  ("cleaned_" ++ fileName report)%string.

Definition reportDownloadName (report : AnalysisReport) : string :=
  ("report_" ++ replaceFirst ".csv" "" (fileName report) ++ ".html")%string.

(** *** components/ProcessingView.tsx *)

Definition messages : list string :=
  ["Analyzing columns...";
   "Detecting missing values...";
   "Identifying outliers...";
   "Cleaning data...";
   "Performing feature engineering...";
   "Generating final report..."].

(** One firing of the interval: the new index and what [setMessage] is
    given, [None] for [undefined]. *)
Definition tick (messageIndex : nat) : nat * option string :=
  let messageIndex := (messageIndex + 1) mod length messages in
  (messageIndex, nth_error messages messageIndex).

(** The index and the message on screen after a number of firings. *)
Fixpoint afterTicks (n : nat) : nat * option string :=
  match n with
  | O => (0, Some "Analyzing columns...")
  | S k => tick (fst (afterTicks k))
  end.

(** *** App.tsx *)

Record AppModel : Type := {
  appState : AppState;
  report : option AnalysisReport;
  app_cleanedData : list TableRow;
  error : option string
}.

Definition initialApp : AppModel :=
  {| appState := READY_TO_UPLOAD; report := None; app_cleanedData := [];
     error := None |}.

(** [err instanceof Error ? err.message : '...']: both kinds of rejection
    of [processData] are Error objects. *)
Definition errorMessage (err : Thrown) : string :=
  match err with
  | NewError message => message
  | HostError message => message
  end.

(** [handleFileUpload], up to its [await]. *)
Definition uploadStarted (app : AppModel) : AppModel :=
  {| appState := PROCESSING; report := report app;
     app_cleanedData := app_cleanedData app; error := None |}.

(** [handleFileUpload], from the moment the promise of [processData]
    settles. *)
Definition uploadSettled (app : AppModel)
  (outcome : Promise (AnalysisReport * list TableRow)) : AppModel :=
  match outcome with
  | Resolved (analysisReport, newCleanedData) =>
      {| appState := REPORT_READY; report := Some analysisReport;
         app_cleanedData := newCleanedData; error := error app |}
  | Rejected err =>
      {| appState := ERROR; report := report app;
         app_cleanedData := app_cleanedData app;
         error := Some (errorMessage err) |}
  end.

Definition handleReset (app : AppModel) : AppModel :=
  {| appState := READY_TO_UPLOAD; report := None; app_cleanedData := [];
     error := None |}.

(** What [renderContent] puts on screen. *)
Inductive Content : Type :=
| ShowProcessingView
| ShowReportView (report : AnalysisReport) (cleanedData : list TableRow)
| ShowNothing                          (* [report && ...] with no report *)
| ShowError (message : option string)
| ShowFileUpload.

Definition renderContent (app : AppModel) : Content :=
  match appState app with
  | PROCESSING => ShowProcessingView
  | REPORT_READY =>
      match report app with
      | Some r => ShowReportView r (app_cleanedData app)
      | None => ShowNothing
      end
  | ERROR => ShowError (error app)
  | READY_TO_UPLOAD => ShowFileUpload
  end.

(** The moves of the application.  A handler runs from the view that
    carries it: [onFileUpload] from the upload view, [onReset] from the
    report view and from the error view's button; the pending promise
    settles while the processing view is shown. *)
Inductive appStep : AppModel -> AppModel -> Prop :=
| step_upload app :
    renderContent app = ShowFileUpload ->
    appStep app (uploadStarted app)
| step_settle app outcome :
    renderContent app = ShowProcessingView ->
    appStep app (uploadSettled app outcome)
| step_reset_report app r rows :
    renderContent app = ShowReportView r rows ->
    appStep app (handleReset app)
| step_reset_error app message :
    renderContent app = ShowError message ->
    appStep app (handleReset app).

Inductive reachable : AppModel -> Prop :=
| reachable_initial : reachable initialApp
| reachable_step app app' : reachable app -> appStep app app' -> reachable app'.

Section Views.
Context {host : JsHost}.

(** *** components/ColumnTable.tsx *)

Definition formatValue (value : Value) : Value :=
  match value with
  | VNum x => VStr (toFixed2 x)
  | _ => if truthy value then value else VStr "N/A"
  end.

Definition getColumnTypeColor (t : ColumnType) : string :=
  match t with
  | NUMERIC => "text-blue-400 bg-blue-900/50"
  | CATEGORICAL => "text-purple-400 bg-purple-900/50"
  | DATE => "text-green-400 bg-green-900/50"
  | TEXT => "text-yellow-400 bg-yellow-900/50"
  | UNKNOWN => "text-gray-500 bg-gray-700/50"
  end.

(** [formatValue(col.stats.mean ?? col.stats.mode)] *)
Definition meanOrModeCell (col : ColumnAnalysis) : Value :=
  formatValue
    (nullish (field VNum (mean (stats col))) (field VStr (mode (stats col)))).

(** [formatValue(col.stats.median ?? col.stats.uniqueValues)] *)
Definition medianOrUniquesCell (col : ColumnAnalysis) : Value :=
  formatValue
    (nullish (field VNum (median (stats col)))
       (field (fun n => VNum (ofNat n)) (uniqueValues (stats col)))).

(** *** components/ModelSuggester.tsx *)

Record Suggestion : Type := {
  model : option ModelType;
  reason : string;
  modelName : option string
}.

(** [`${column.stats.uniqueValues}`] *)
Definition uniqueValuesText (col : ColumnAnalysis) : string :=
  match uniqueValues (stats col) with
  | Some n => NumberToString (ofNat n)
  | None => "undefined"
  end.

(** The memoized [suggestion]. *)
Definition suggestion (selectedColumn : string)
  (columnAnalyses : list ColumnAnalysis) : Suggestion :=
  if String.eqb selectedColumn "" then
    {| model := None;
       reason := "Please select a target variable to get a model suggestion.";
       modelName := None |}
  else
    match find (fun c => String.eqb (name c) selectedColumn) columnAnalyses with
    | None =>
        {| model := None; reason := "Column not found."; modelName := None |}
    | Some column =>
        match type column with
        | NUMERIC =>
            {| model := Some REGRESSION;
               reason := ("The target '" ++ name column
                          ++ "' is numeric, suggesting a regression task.")%string;
               modelName := Some "Linear Regression or Gradient Boosting" |}
        | CATEGORICAL =>
            match uniqueValues (stats column) with
            | Some 2 =>
                {| model := Some CLASSIFICATION;
                   reason := ("The target '" ++ name column
                              ++ "' is binary (2 unique values), suggesting a binary classification task.")%string;
                   modelName :=
                     Some "Logistic Regression or a simple Neural Network" |}
            | _ =>
                {| model := Some CLASSIFICATION;
                   reason := ("The target '" ++ name column
                              ++ "' is categorical (" ++ uniqueValuesText column
                              ++ " unique values), suggesting a multi-class classification task.")%string;
                   modelName := Some "Decision Tree or Random Forest" |}
            end
        | t =>
            {| model := None;
               reason := ("The column type '" ++ ColumnType_text t
                          ++ "' is not suitable for a simple regression or classification baseline.")%string;
               modelName := None |}
        end
    end.

End Views.
End Components.

(** ** A reference host

    An instance of [JsHost] for the worked scenarios.  It follows
    ECMAScript on a fragment; the scenarios use it inside that fragment
    only.
    - [StrNumericLiteral]: an optional sign, then decimal digits with an
      optional fraction, at most 15 digits in all, or [Infinity].  Longer
      literals, exponents and radix prefixes are answered NaN here, which
      ECMAScript does not.
    - [Date_parse]: the date-only forms [YYYY], [YYYY-MM] and
      [YYYY-MM-DD] of the date-time string format, read as UTC midnight;
      any other text is answered NaN (the forms with a time are left out,
      and the formats past the standard one are implementation-defined).
    - The local time zone is UTC.
    - [NumberToString]: exact decimal expansion, which is the language's
      printing for the numbers of at most 15 significant digits between
      1e-6 and 1e21; [fixed2]: rounding of the exact value, below 1e21. *)

Module RefHost.
Import Js.

Local Open Scope Z_scope.

Fixpoint digitsOnly (s : string) : bool :=
  match s with
  | EmptyString => true
  | String c r => isDigit c && digitsOnly r
  end.

Fixpoint digitsZ (acc : Z) (s : string) : Z :=
  match s with
  | EmptyString => acc
  | String c r => digitsZ (acc * 10 + (Z.of_N (N_of_ascii c) - 48)) r
  end.

(** The text before and after the first full stop. *)
Fixpoint splitDot (s : string) : string * option string :=
  match s with
  | EmptyString => (EmptyString, None)
  | String c r =>
      if Ascii.eqb c "." then (EmptyString, Some r)
      else let '(a, b) := splitDot r in (String c a, b)
  end.

Definition unsignedDecimal (s : string) : float :=
  if String.eqb s "Infinity" then PrimFloat.infinity else
  let '(whole, frac) := splitDot s in
  let frac := match frac with Some f => f | None => EmptyString end in
  let digits := (String.length whole + String.length frac)%nat in
  if digitsOnly whole && digitsOnly frac
     && (0 <? digits)%nat && (digits <=? 15)%nat
  then (ofZ (digitsZ 0 (whole ++ frac))
        / ofZ (10 ^ Z.of_nat (String.length frac)))%float
  else NaN.

Definition strNumericLiteral (s : string) : float :=
  match s with
  | String "+" r => unsignedDecimal r
  | String "-" r => (- unsignedDecimal r)%float
  | _ => unsignedDecimal s
  end.

(** Days from 1970-01-01 to a civil date, and back. *)
Definition daysFromCivil (y m d : Z) : Z :=
  let y := if m <=? 2 then y - 1 else y in
  let era := y / 400 in
  let yoe := y - era * 400 in
  let doy := (153 * (if 2 <? m then m - 3 else m + 9) + 2) / 5 + d - 1 in
  let doe := yoe * 365 + yoe / 4 - yoe / 100 + doy in
  era * 146097 + doe - 719468.

Definition civilFromDays (days : Z) : Z * Z * Z :=
  let z := days + 719468 in
  let era := z / 146097 in
  let doe := z - era * 146097 in
  let yoe := (doe - doe / 1460 + doe / 36524 - doe / 146096) / 365 in
  let doy := doe - (365 * yoe + yoe / 4 - yoe / 100) in
  let mp := (5 * doy + 2) / 153 in
  let d := doy - (153 * mp + 2) / 5 + 1 in
  let m := if mp <? 10 then mp + 3 else mp - 9 in
  let y := yoe + era * 400 in
  ((if m <=? 2 then y + 1 else y), m, d).

Definition msPerDay : Z := 86400000.

Definition dateOnly (y m d : string) : float :=
  if digitsOnly y && digitsOnly m && digitsOnly d then
    let '(yz, mz, dz) := (digitsZ 0 y, digitsZ 0 m, digitsZ 0 d) in
    let days := daysFromCivil yz mz dz in
    if (1 <=? mz) && (mz <=? 12) && (1 <=? dz)
       && (let '(y', m', d') := civilFromDays days in
           (y' =? yz) && (m' =? mz) && (d' =? dz))
    then ofZ (days * msPerDay)
    else NaN
  else NaN.

Definition dateParse (s : string) : float :=
  let dash i := String.eqb (substring i 1 s) "-" in
  match String.length s with
  | 4%nat => dateOnly s "01" "01"
  | 7%nat =>
      if dash 4%nat then dateOnly (substring 0 4 s) (substring 5 2 s) "01"
      else NaN
  | 10%nat =>
      if dash 4%nat && dash 7%nat
      then dateOnly (substring 0 4 s) (substring 5 2 s) (substring 8 2 s)
      else NaN
  | _ => NaN
  end.

(** The integer and the binary exponent of a finite number. *)
Definition exact (x : float) : Z * Z :=
  match Prim2SF x with
  | S754_finite s m e => ((if s then Z.neg m else Z.pos m), e)
  | _ => (0, 0)
  end.

(** The floor of a finite number. *)
Definition floorZ (x : float) : Z :=
  let '(m, e) := exact x in
  if 0 <=? e then m * 2 ^ e else m / 2 ^ (- e).

Definition utcDay (t : float) : Z * Z * Z :=
  civilFromDays (floorZ t / msPerDay).

Definition fullYear (t : float) : float := let '(y, _, _) := utcDay t in ofZ y.
Definition month (t : float) : float := let '(_, m, _) := utcDay t in ofZ (m - 1).
Definition date (t : float) : float := let '(_, _, d) := utcDay t in ofZ d.

Fixpoint decimalDigits (fuel : nat) (n : Z) (acc : string) : string :=
  match fuel with
  | O => acc
  | S f =>
      let acc' := String (ascii_of_N (Z.to_N (48 + n mod 10))) acc in
      if n / 10 =? 0 then acc' else decimalDigits f (n / 10) acc'
  end.

(** The decimal numeral of a natural number. *)
Definition decimal (n : Z) : string :=
  decimalDigits (S (Z.to_nat (Z.log2 n))) n EmptyString.

Definition padLeft (width : nat) (s : string) : string :=
  string_of_list_ascii (repeat "0"%char (width - String.length s)) ++ s.

Fixpoint dropTrailingZeros (s : string) : string :=
  match s with
  | EmptyString => EmptyString
  | String c r =>
      let r' := dropTrailingZeros r in
      if Ascii.eqb c "0" && String.eqb r' "" then EmptyString else String c r'
  end.

(** [whole.frac] for the non-negative rational [n / 10^k]. *)
Definition fixedPoint (n : Z) (k : nat) : string * string :=
  let p := 10 ^ Z.of_nat k in
  (decimal (n / p), padLeft k (decimal (n mod p))).

Definition numberToString (x : float) : string :=
  if isNaN x then "NaN"
  else if PrimFloat.eqb x PrimFloat.infinity then "Infinity"
  else if PrimFloat.eqb x PrimFloat.neg_infinity then "-Infinity"
  else
    let '(m, e) := exact x in
    let sign := if m <? 0 then "-" else "" in
    let a := Z.abs m in
    if 0 <=? e then sign ++ decimal (a * 2 ^ e)
    else
      let k := Z.to_nat (- e) in
      let '(whole, frac) := fixedPoint (a * 5 ^ (- e)) k in
      let frac := dropTrailingZeros frac in
      if String.eqb frac "" then sign ++ whole
      else sign ++ whole ++ "." ++ frac.

Definition fixed2 (x : float) : string :=
  if isNaN x then "NaN"
  else if negb (PrimFloat.is_finite x) then numberToString x
  else
    let '(m, e) := exact x in
    let a := Z.abs m in
    (* the integer nearest to |x| * 100, the larger one on a tie *)
    let n := if 0 <=? e then a * 2 ^ e * 100
             else (a * 200 + 2 ^ (- e)) / 2 ^ (- e + 1) in
    let sign := if m <? 0 then "-" else "" in
    let '(whole, frac) := fixedPoint n 2 in
    sign ++ whole ++ "." ++ frac.

(** [Object.prototype] as ECMAScript and its Annex B lay it out: eleven
    methods and the accessor [__proto__], whose getter answers
    [Object.prototype] itself.  A built-in function is printed with its
    name and a body of [native code]. *)
Definition nativeText (name : string) : string :=
  "function " ++ name ++ "() { [native code] }".

Definition prototypeMethods : Obj string :=
  [("constructor", nativeText "Object");
   ("__defineGetter__", nativeText "__defineGetter__");
   ("__defineSetter__", nativeText "__defineSetter__");
   ("hasOwnProperty", nativeText "hasOwnProperty");
   ("__lookupGetter__", nativeText "__lookupGetter__");
   ("__lookupSetter__", nativeText "__lookupSetter__");
   ("isPrototypeOf", nativeText "isPrototypeOf");
   ("propertyIsEnumerable", nativeText "propertyIsEnumerable");
   ("toString", nativeText "toString");
   ("valueOf", nativeText "valueOf");
   ("toLocaleString", nativeText "toLocaleString")].

Definition objectPrototype (k : string) : option Inherited :=
  if String.eqb k "__proto__"
  then Some (InheritedAccessor "[object Object]")
  else option_map InheritedMethod (lookup prototypeMethods k).

Definition host : JsHost.
Proof.
  refine
    {| StrNumericLiteral := strNumericLiteral;
       Date_parse := dateParse;
       getFullYear := fullYear;
       getMonth := month;
       getDate := date;
       NumberToString := numberToString;
       toFixed2 := fixed2;
       prototypeMember := objectPrototype;
       prototype_no_empty_name := eq_refl;
       prototype_accessor_no_date := _ |}.
  intros k text. unfold objectPrototype.
  destruct (String.eqb k "__proto__") eqn:E.
  - apply String.eqb_eq in E. subst k. reflexivity.
  - destruct (lookup prototypeMethods k); discriminate.
Defined.

End RefHost.

Import Js Types DataProcessor.
Import Components.

(** ** Vocabulary of the properties *)

(** The cells of a column, top to bottom. *)
Definition columnOf (header : string) (rows : list TableRow) : list Value :=
  map (fun row => cell row header) rows.

(** The types whose columns are imputed. *)
Definition imputable (t : ColumnType) : bool :=
  match t with
  | NUMERIC | CATEGORICAL | DATE => true
  | TEXT | UNKNOWN => false
  end.

(** A column analysis that calls for a cleaning action. *)
Definition needsCleaning (a : ColumnAnalysis) : bool :=
  (0 <? missingCount a) && imputable (type a).

(** Occurrences of a string in a pool. *)
Definition occurrences (pool : list string) (s : string) : nat :=
  count_occ string_dec pool s.

(** The number a tally holds under a key, 0 when it holds none. *)
Definition countIn (counts : Obj Count) (k : string) : nat :=
  match lookup counts k with
  | Some (CNum n) => n
  | _ => 0
  end.

(** A tally that holds numbers only. *)
Definition numeric (counts : Obj Count) : Prop :=
  forall k s, lookup counts k <> Some (CText s).

(** A string that names no member of [Object.prototype]. *)
Definition ordinary {host : JsHost} (s : string) : Prop :=
  prototypeMember s = None.

(** A string under which an assignment creates no own property. *)
Definition swallowed {host : JsHost} (s : string) : bool :=
  match prototypeMember s with
  | Some (InheritedAccessor _) => true
  | _ => false
  end.

(** The keys that are array indices, and the order among them. *)
Definition isIndexKey (k : string) : bool :=
  match arrayIndex k with
  | Some _ => true
  | None => false
  end.

Definition indexValue (k : string) : N :=
  match arrayIndex k with
  | Some n => n
  | None => 0%N
  end.

Definition ascending (ks : list string) : Prop :=
  StronglySorted (fun a b => (indexValue a < indexValue b)%N) ks.

(** From the specification's words, to be compared with [modeOf]: the
    mode as the first key, in the order of the keys, that no other key
    exceeds.  The running maximum changes only for a strictly larger
    count. *)
Definition firstMostFrequent {host : JsHost} (pool : list string) : string :=
  let counts := tally pool in
  fold_left (fun a b => if countGt counts b a then b else a)
    (tl (keys counts)) (hd "" (keys counts)).

(** From the specification's words, to be compared with [meanOf]: the
    arithmetic mean of the cells that are not missing. *)
Definition meanOfPresent {host : JsHost} (values : list Value) : float :=
  let present := map Number (filter notMissing values) in
  (fold_left PrimFloat.add present 0 / ofNat (length present))%float.

(** The three results of [analyzeAndClean], one at a time. *)
Definition analysisOf {host : JsHost} (header : string) (rows : list TableRow)
  : ColumnAnalysis :=
  fst (fst (analyzeAndClean header rows)).

Definition cleanedOf {host : JsHost} (header : string) (rows : list TableRow)
  : list TableRow :=
  snd (fst (analyzeAndClean header rows)).

Definition actionsOf {host : JsHost} (header : string) (rows : list TableRow)
  : list CleaningAction :=
  snd (analyzeAndClean header rows).

(** The value written into the missing cells of an imputed column. *)
Definition fillOf {host : JsHost} (header : string) (rows : list TableRow) : Value :=
  let values := columnOf header rows in
  match inferColumnType values with
  | NUMERIC => VNum (meanOf (numericValuesOf values))
  | _ => VStr (modeOf (stringValuesOf values))
  end.

(** The loop over the headers, and the state it starts from. *)
Definition run {host : JsHost} (headers : list string) (st : State) : State :=
  fold_left processColumn headers st.

Definition start (rawData : list TableRow) : State :=
  {| cleanedData := deepCopy rawData; st_columnAnalyses := [];
     st_cleaningActions := []; st_featureEngineering := [] |}.

(** A one-column dataset. *)
Definition singleColumn (header : string) (values : list Value)
  : list TableRow :=
  map (fun v => [(header, v)]) values.

Definition csv (rows : list TableRow) : File :=
  {| file_name := "data.csv"; papa := Complete rows [] |}.

(** The scenarios. *)
Definition scenarioA : list Value := [VNum 1; VNum 2; VStr ""; VNum 4].

Definition tiedColumn : list Value :=
  [VStr "a"; VStr "b"; VStr "a"; VStr "b"; VStr "a"; VStr "b";
   VStr "a"; VStr "b"; VStr "a"; VStr "b"; VStr "a"; VStr "b"].

(** Twelve cells over two array indices and two other strings. *)
Definition indexedColumn : list Value :=
  [VStr "b"; VStr "10"; VStr "a"; VStr "2"; VStr "b"; VStr "10";
   VStr "a"; VStr "2"; VStr "b"; VStr "10"; VStr "2"; VStr "a"].

Definition scenarioB : list Value :=
  [VStr "red"; VStr "blue"; VStr "red"; VStr "red"; VStr "blue"; VStr "red";
   VStr "blue"; VStr "red"; VStr "blue"; VStr "red"; VStr "blue"; VStr "red";
   VStr ""; VStr ""].

Definition scenarioC : list Value :=
  [VStr "a"; VStr "b"; VStr "c"; VStr "d"; VStr "e"].

Definition yearsColumn : list Value :=
  [VStr "2020"; VStr "2021"; VStr ""].

Definition datesColumn : list Value :=
  [VStr "2021-01-15"; VStr ""; VStr "2021-05-01"; VStr "2021-01-15"].

Definition notesColumn : list Value :=
  [VStr "hello world"; VNum 0; VNull; VStr ""].

Definition raggedRows : list TableRow :=
  [[("id", VNum 1); ("when", VStr "2021-05-01")];
   [("id", VNull); ("when", VStr "2021-05-02"); ("extra", VNull)]].

(** A column analysis whose column gets synthesized features, and the
    log entry it gets. *)
Definition engineered (a : ColumnAnalysis) : bool :=
  match type a with
  | DATE | TEXT => true
  | _ => false
  end.

Definition featureInfoOf (a : ColumnAnalysis) : FeatureEngineeringInfo :=
  match type a with
  | DATE =>
      {| sourceColumn := name a; newColumns := dateColumns (name a);
         description := "Extracted date parts" |}
  | _ =>
      {| sourceColumn := name a; newColumns := textColumns (name a);
         description := "Calculated text metrics" |}
  end.

(** The words of a text, counted as the places where one starts: a
    character that is no white space, at the start or after white space. *)
Fixpoint wordStarts (afterSpace : bool) (s : string) : nat :=
  match s with
  | EmptyString => 0
  | String c r =>
      if isWhiteSpace c then wordStarts true r
      else (if afterSpace then 1 else 0) + wordStarts false r
  end.

(** Whether a text begins with a character of a word. *)
Definition startsWord (s : string) : bool :=
  match s with
  | EmptyString => false
  | String c _ => negb (isWhiteSpace c)
  end.

(** The pieces of a split that [filter(Boolean)] keeps, counted. *)
Definition nonEmptyPieces (pieces : list string) : nat :=
  length (filter (fun p => negb (String.eqb p "")) pieces).

(** The distinct strings of a pool, in order of first occurrence. *)
Fixpoint strAdd (seen : list string) (s : string) : list string :=
  match seen with
  | [] => [s]
  | t :: r => if String.eqb t s then seen else t :: strAdd r s
  end.

Definition distinctStrings (pool : list string) : list string :=
  fold_left strAdd pool [].

(** The bar of a column in the chart. *)
Definition datumOf (col : ColumnAnalysis) : ChartDatum :=
  {| datum_name := name col; missingValues := missingCount col |}.

(** The bars of a given height. *)
Definition barsOfHeight (n : nat) (bars : list ChartDatum) : list ChartDatum :=
  filter (fun d => missingValues d =? n) bars.

(** The column a selection finds. *)
Definition selected (selectedColumn : string)
  (columnAnalyses : list ColumnAnalysis) : option ColumnAnalysis :=
  find (fun c => String.eqb (name c) selectedColumn) columnAnalyses.

(** A row that has all the keys of another, and no fewer. *)
Definition keepsKeys (before after : TableRow) : Prop :=
  incl (keys before) (keys after) /\
  length (keys before) <= length (keys after).

(** A cell that was present is kept as it was. *)
Definition kept (before after : Value) : Prop :=
  isMissing before = false -> after = before.

(** The synthesized names of all the headers. *)
Definition synthesizedNames (headers : list string) : list string :=
  flat_map (fun h => dateColumns h ++ textColumns h) headers.

(** Further scenarios. *)
Definition completeRows : list TableRow :=
  [[("id", VNum 1); ("city", VStr "Oslo")];
   [("id", VNum 2); ("city", VStr "Bergen")]].

Definition reportNamed (name : string) : AnalysisReport :=
  {| fileName := name; initialRows := 0; cleanedRows := 0; initialCols := 0;
     cleanedCols := 0; processingTime := 0%float; columnAnalyses := [];
     cleaningActions := []; featureEngineering := [] |}.

Definition mixedRows : list TableRow :=
  [[("id", VNum 1); ("when", VStr "2021-05-01"); ("note", VStr "first  row")];
   [("id", VNull); ("when", VStr ""); ("note", VStr " ")];
   [("id", VNum 4); ("when", VStr "2021-01-15"); ("note", VNum 0)]].

(** ** Records *)

Lemma NoDup_snoc {A : Type} (l : list A) (x : A) :
  ~ In x l -> NoDup l -> NoDup (l ++ [x]).
Proof.
  intros Hx Hl. induction Hl as [|y l Hy Hl IH]; simpl.
  - constructor; [tauto|constructor].
  - constructor.
    + rewrite in_app_iff. simpl in *. intuition congruence.
    + apply IH. simpl in Hx. tauto.
Qed.

Section Objects.
Context {A : Type}.
Implicit Types (o : Obj A) (k : string) (v : A).

Lemma lookup_app o1 o2 k :
  lookup (o1 ++ o2) k =
  match lookup o1 k with
  | Some x => Some x
  | None => lookup o2 k
  end.
Proof.
  induction o1 as [|[k' x] o1 IH]; simpl; [reflexivity|].
  destruct (String.eqb k' k); auto.
Qed.

Lemma lookup_replace_same o k v x :
  lookup o k = Some x -> lookup (replace o k v) k = Some v.
Proof.
  induction o as [|[k' y] o IH]; simpl; [discriminate|].
  destruct (String.eqb k' k) eqn:E; simpl; rewrite E; auto.
Qed.

Lemma lookup_replace_other o k k' v :
  k' <> k -> lookup (replace o k v) k' = lookup o k'.
Proof.
  intros Hne. induction o as [|[j y] o IH]; simpl; [reflexivity|].
  destruct (String.eqb j k) eqn:E; simpl.
  - apply String.eqb_eq in E. subst j.
    destruct (String.eqb k k') eqn:E'; [|reflexivity].
    apply String.eqb_eq in E'. congruence.
  - destruct (String.eqb j k'); auto.
Qed.

Lemma lookup_insertIndex_same o n k v :
  lookup o k = None -> lookup (insertIndex o n k v) k = Some v.
Proof.
  induction o as [|[j y] o IH]; simpl; intros H.
  - now rewrite String.eqb_refl.
  - destruct (String.eqb j k) eqn:E; [discriminate|].
    destruct (arrayIndex j) as [m|]; [destruct (m <? n)%N|]; simpl;
      rewrite ?E, ?String.eqb_refl; auto.
Qed.

Lemma lookup_insertIndex_other o n k k' v :
  k' <> k -> lookup (insertIndex o n k v) k' = lookup o k'.
Proof.
  intros Hne.
  assert (Hk : String.eqb k k' = false) by (apply String.eqb_neq; congruence).
  induction o as [|[j y] o IH]; simpl.
  - now rewrite Hk.
  - destruct (arrayIndex j) as [m|]; [destruct (m <? n)%N|]; simpl;
      rewrite ?Hk, ?IH; reflexivity.
Qed.

Lemma lookup_assign_same o k v : lookup (assign o k v) k = Some v.
Proof.
  unfold assign. destruct (lookup o k) as [x|] eqn:E.
  - eapply lookup_replace_same; eauto.
  - destruct (arrayIndex k) as [n|].
    + now apply lookup_insertIndex_same.
    + rewrite lookup_app, E. simpl. now rewrite String.eqb_refl.
Qed.

Lemma lookup_assign_other o k k' v :
  k' <> k -> lookup (assign o k v) k' = lookup o k'.
Proof.
  intros Hne. unfold assign. destruct (lookup o k) as [x|] eqn:E.
  - now apply lookup_replace_other.
  - destruct (arrayIndex k) as [n|].
    + now apply lookup_insertIndex_other.
    + rewrite lookup_app. destruct (lookup o k'); [reflexivity|].
      simpl. destruct (String.eqb k k') eqn:E'; [|reflexivity].
      apply String.eqb_eq in E'. congruence.
Qed.

Lemma lookup_In_keys o k : lookup o k <> None <-> In k (keys o).
Proof.
  induction o as [|[j y] o IH]; simpl.
  - split; [congruence|tauto].
  - destruct (String.eqb j k) eqn:E.
    + apply String.eqb_eq in E. split; [auto|congruence].
    + apply String.eqb_neq in E. rewrite IH. tauto.
Qed.

Lemma keys_replace o k v : keys (replace o k v) = keys o.
Proof.
  induction o as [|[j y] o IH]; simpl; [reflexivity|].
  destruct (String.eqb j k); simpl; congruence.
Qed.

Lemma In_keys_insertIndex o n k v j :
  In j (keys (insertIndex o n k v)) <-> j = k \/ In j (keys o).
Proof.
  induction o as [|[i y] o IH]; simpl.
  - intuition congruence.
  - destruct (arrayIndex i) as [m|]; [destruct (m <? n)%N|]; simpl;
      rewrite ?IH; intuition congruence.
Qed.

Lemma In_keys_assign o k v j :
  In j (keys (assign o k v)) <-> j = k \/ In j (keys o).
Proof.
  unfold assign. destruct (lookup o k) as [x|] eqn:E.
  - rewrite keys_replace. split; [auto|]. intros [->|H]; [|exact H].
    apply lookup_In_keys. congruence.
  - destruct (arrayIndex k) as [n|].
    + apply In_keys_insertIndex.
    + unfold keys. rewrite map_app, in_app_iff. simpl. intuition congruence.
Qed.

Lemma NoDup_keys_insertIndex o n k v :
  ~ In k (keys o) -> NoDup (keys o) -> NoDup (keys (insertIndex o n k v)).
Proof.
  induction o as [|[i y] o IH]; simpl; intros Hk Hnd.
  - constructor; [tauto|constructor].
  - inversion Hnd as [|? ? Hi Hnd']; subst.
    destruct (arrayIndex i) as [m|]; [destruct (m <? n)%N|]; simpl.
    + constructor.
      * rewrite In_keys_insertIndex. intuition congruence.
      * apply IH; tauto.
    + constructor; [simpl; tauto|assumption].
    + constructor; [simpl; tauto|assumption].
Qed.

Lemma NoDup_keys_assign o k v : NoDup (keys o) -> NoDup (keys (assign o k v)).
Proof.
  intros Hnd. unfold assign. destruct (lookup o k) as [x|] eqn:E.
  - now rewrite keys_replace.
  - assert (Hk : ~ In k (keys o)) by (rewrite <- lookup_In_keys; congruence).
    destruct (arrayIndex k) as [n|].
    + now apply NoDup_keys_insertIndex.
    + unfold keys. rewrite map_app. simpl.
      apply NoDup_snoc; assumption.
Qed.

End Objects.

(** ** Strings *)

Lemma append_inv_head (h s t : string) :
  (h ++ s)%string = (h ++ t)%string -> s = t.
Proof.
  induction h as [|c h IH]; simpl; [auto|].
  intros H. injection H. exact IH.
Qed.

Lemma append_neq_self (h s : string) :
  s <> EmptyString -> (h ++ s)%string <> h.
Proof.
  intros Hs H. apply Hs. apply (append_inv_head h).
  rewrite H. clear. induction h; simpl; congruence.
Qed.

(** ** The engine, column by column *)

(** Case analysis on the inferred type and on the missing count. *)
Ltac open_analysis :=
  unfold analysisOf, cleanedOf, actionsOf, analyzeAndClean, needsCleaning,
    fillOf, columnOf;
  cbv zeta;
  match goal with
  | |- context [inferColumnType ?vs] =>
      destruct (inferColumnType vs) eqn:Etype;
      try destruct (0 <? missingCountOf vs) eqn:Emissing
  end; simpl.

Section EngineFacts.
Context {host : JsHost}.

Lemma notMissing_isMissing v : notMissing v = negb (isMissing v).
Proof.
  unfold notMissing, isMissing.
  destruct (strictEq v VNull), (strictEq v VUndefined), (strictEq v (VStr ""));
    reflexivity.
Qed.

Lemma cell_assign_same (row : TableRow) k v : cell (assign row k v) k = v.
Proof. unfold cell. now rewrite lookup_assign_same. Qed.

Lemma cell_assign_other (row : TableRow) k k' v :
  k' <> k -> cell (assign row k v) k' = cell row k'.
Proof. intros H. unfold cell. now rewrite lookup_assign_other. Qed.

Lemma columnOf_impute_same header fill rows :
  columnOf header (impute header fill rows) =
  map (fun v => if isMissing v then fill else v) (columnOf header rows).
Proof.
  unfold columnOf, impute. rewrite !map_map. apply map_ext. intros row.
  unfold imputeRow. destruct (isMissing (cell row header)); [|reflexivity].
  apply cell_assign_same.
Qed.

Lemma columnOf_impute_other header fill rows k :
  k <> header -> columnOf k (impute header fill rows) = columnOf k rows.
Proof.
  intros Hk. unfold columnOf, impute. rewrite map_map. apply map_ext.
  intros row. unfold imputeRow.
  destruct (isMissing (cell row header)); [|reflexivity].
  now apply cell_assign_other.
Qed.

Lemma cell_dateFeaturesRow_other header row k :
  ~ In k (dateColumns header) ->
  cell (dateFeaturesRow header row) k = cell row k.
Proof.
  intros Hk. unfold dateFeaturesRow.
  destruct (negb (isNaN (newDate (cell row header)))); [|reflexivity].
  simpl in Hk. rewrite !cell_assign_other; intuition congruence.
Qed.

Lemma cell_textFeaturesRow_other header row k :
  ~ In k (textColumns header) ->
  cell (textFeaturesRow header row) k = cell row k.
Proof.
  intros Hk. unfold textFeaturesRow. simpl in Hk.
  rewrite !cell_assign_other; intuition congruence.
Qed.

Lemma header_not_synthesized header :
  ~ In header (dateColumns header ++ textColumns header).
Proof.
  simpl. intros H.
  repeat (destruct H as [H|H];
          [revert H; apply append_neq_self; discriminate|]).
  exact H.
Qed.

Lemma columnOf_engineer_other header t rows k :
  ~ In k (dateColumns header ++ textColumns header) ->
  columnOf k (fst (engineer header t rows)) = columnOf k rows.
Proof.
  intros Hk. rewrite in_app_iff in Hk.
  unfold engineer, columnOf. destruct t; simpl fst; try reflexivity;
    rewrite map_map; apply map_ext; intros row.
  - apply cell_dateFeaturesRow_other. tauto.
  - apply cell_textFeaturesRow_other. tauto.
Qed.

Lemma length_engineer header t rows :
  length (fst (engineer header t rows)) = length rows.
Proof. destruct t; simpl; rewrite ?length_map; reflexivity. Qed.

Lemma analysisOf_name header rows : name (analysisOf header rows) = header.
Proof. open_analysis; reflexivity. Qed.

Lemma analysisOf_type header rows :
  type (analysisOf header rows) = inferColumnType (columnOf header rows).
Proof. open_analysis; auto. Qed.

Lemma analysisOf_missingCount header rows :
  missingCount (analysisOf header rows) = missingCountOf (columnOf header rows).
Proof. open_analysis; auto. Qed.

Lemma actionsOf_spec header rows :
  actionsOf header rows =
  if needsCleaning (analysisOf header rows)
  then [{| column := header; action := "Filled missing values";
           details :=
             match fillOf header rows with
             | VNum m => ("Used mean (" ++ toFixed2 m ++ ")")%string
             | VStr m => ("Used mode ('" ++ m ++ "')")%string
             | _ => EmptyString
             end |}]
  else [].
Proof. open_analysis; rewrite ?Emissing; try reflexivity. Qed.

Lemma cleanedOf_spec header rows :
  cleanedOf header rows =
  if needsCleaning (analysisOf header rows)
  then impute header (fillOf header rows) rows
  else rows.
Proof. open_analysis; rewrite ?Emissing; try reflexivity. Qed.

Lemma processColumn_spec st header :
  processColumn st header =
  let rows := cleanedData st in
  let a := analysisOf header rows in
  let e := engineer header (type a) (cleanedOf header rows) in
  {| cleanedData := fst e;
     st_columnAnalyses := st_columnAnalyses st ++ [a];
     st_cleaningActions := st_cleaningActions st ++ actionsOf header rows;
     st_featureEngineering := st_featureEngineering st ++ snd e |}.
Proof.
  unfold processColumn, analysisOf, cleanedOf, actionsOf.
  destruct (analyzeAndClean header (cleanedData st)) as [[a c] acts]. simpl.
  destruct (engineer header (type a) c). reflexivity.
Qed.

End EngineFacts.

(** ** The loop over the headers *)

Section Pipeline.
Context {host : JsHost}.

Lemma length_start rawData :
  length (cleanedData (start rawData)) = length rawData.
Proof. apply length_map. Qed.

Lemma run_snoc headers header st :
  run (headers ++ [header]) st = processColumn (run headers st) header.
Proof. unfold run. now rewrite fold_left_app. Qed.

Lemma length_processColumn st header :
  length (cleanedData (processColumn st header)) = length (cleanedData st).
Proof.
  rewrite processColumn_spec. cbv zeta. simpl cleanedData.
  rewrite length_engineer, cleanedOf_spec.
  destruct (needsCleaning _); [apply length_map|reflexivity].
Qed.

Lemma length_run headers st :
  length (cleanedData (run headers st)) = length (cleanedData st).
Proof.
  revert st. induction headers as [|h hs IH]; intros st; simpl; [reflexivity|].
  unfold run in *. simpl. now rewrite IH, length_processColumn.
Qed.

Lemma names_run headers st :
  map name (st_columnAnalyses (run headers st)) =
  map name (st_columnAnalyses st) ++ headers.
Proof.
  induction headers as [|h hs IH] using rev_ind.
  - simpl. now rewrite app_nil_r.
  - rewrite run_snoc, processColumn_spec. cbv zeta. simpl st_columnAnalyses.
    now rewrite map_app, IH, app_assoc; simpl; rewrite analysisOf_name.
Qed.

Lemma actions_run headers st :
  map column (st_cleaningActions st) =
    map name (filter needsCleaning (st_columnAnalyses st)) ->
  map column (st_cleaningActions (run headers st)) =
    map name (filter needsCleaning (st_columnAnalyses (run headers st))).
Proof.
  intros H0. induction headers as [|h hs IH] using rev_ind; [exact H0|].
  rewrite run_snoc, processColumn_spec. cbv zeta.
  simpl st_cleaningActions. simpl st_columnAnalyses.
  rewrite filter_app, !map_app, IH, actionsOf_spec. f_equal. simpl.
  destruct (needsCleaning _); simpl; [now rewrite analysisOf_name|reflexivity].
Qed.

Lemma engineer_sources header t rows :
  Forall (fun i => sourceColumn i = header) (snd (engineer header t rows)).
Proof. destruct t; simpl; repeat constructor. Qed.

Lemma logs_run headers st :
  Forall (fun a => In (column a) headers)
    (skipn (length (st_cleaningActions st))
       (st_cleaningActions (run headers st)))
  /\ Forall (fun i => In (sourceColumn i) headers)
    (skipn (length (st_featureEngineering st))
       (st_featureEngineering (run headers st)))
  /\ firstn (length (st_cleaningActions st))
       (st_cleaningActions (run headers st)) = st_cleaningActions st
  /\ firstn (length (st_featureEngineering st))
       (st_featureEngineering (run headers st)) = st_featureEngineering st.
Proof.
  induction headers as [|h hs IH] using rev_ind.
  - simpl. rewrite !skipn_all, !firstn_all. auto.
  - destruct IH as (Ha & Hf & Pa & Pf).
    rewrite run_snoc, processColumn_spec. cbv zeta.
    simpl st_cleaningActions. simpl st_featureEngineering.
    set (r := run hs st) in *.
    assert (La : length (st_cleaningActions st) <= length (st_cleaningActions r)).
    { rewrite <- Pa at 1. rewrite length_firstn. lia. }
    assert (Lf : length (st_featureEngineering st)
                 <= length (st_featureEngineering r)).
    { rewrite <- Pf at 1. rewrite length_firstn. lia. }
    rewrite !skipn_app, !firstn_app.
    replace (length (st_cleaningActions st) - length (st_cleaningActions r))
      with 0 by lia.
    replace (length (st_featureEngineering st)
             - length (st_featureEngineering r)) with 0 by lia.
    simpl. rewrite !app_nil_r. repeat split; auto.
    + apply Forall_app. split.
      * eapply Forall_impl; [|exact Ha]. intros a Hin.
        rewrite in_app_iff. auto.
      * rewrite actionsOf_spec. destruct (needsCleaning _); constructor;
          [simpl; rewrite in_app_iff; simpl; auto|constructor].
    + apply Forall_app. split.
      * eapply Forall_impl; [|exact Hf]. intros a Hin.
        rewrite in_app_iff. auto.
      * eapply Forall_impl; [|apply engineer_sources].
        intros i ->. rewrite in_app_iff. simpl. auto.
Qed.

Lemma columnOf_processColumn_other st header k :
  k <> header ->
  ~ In k (dateColumns header ++ textColumns header) ->
  columnOf k (cleanedData (processColumn st header)) =
  columnOf k (cleanedData st).
Proof.
  intros Hk Hs. rewrite processColumn_spec. cbv zeta. simpl cleanedData.
  rewrite columnOf_engineer_other by assumption.
  rewrite cleanedOf_spec. destruct (needsCleaning _); [|reflexivity].
  now apply columnOf_impute_other.
Qed.

Lemma columnOf_run_other headers st k :
  ~ In k headers ->
  (forall h, In h headers -> ~ In k (dateColumns h ++ textColumns h)) ->
  columnOf k (cleanedData (run headers st)) = columnOf k (cleanedData st).
Proof.
  revert st. induction headers as [|h hs IH]; intros st Hk Hs; [reflexivity|].
  unfold run in *. simpl. rewrite IH.
  - apply columnOf_processColumn_other.
    + intros ->. apply Hk. now left.
    + apply Hs. now left.
  - intros H. apply Hk. now right.
  - intros h' H. apply Hs. now right.
Qed.

(** What a resolved [processData] was computed from. *)
Lemma processData_resolved file startTime endTime report cleaned :
  processData file startTime endTime = Resolved (report, cleaned) ->
  exists row0 rest,
    papa file = Complete (row0 :: rest) [] /\
    parseCSV file = Resolved (row0 :: rest) /\
    let st := run (keys row0) (start (row0 :: rest)) in
    cleaned = cleanedData st /\
    initialRows report = length (row0 :: rest) /\
    cleanedRows report = length (cleanedData st) /\
    initialCols report = length (keys row0) /\
    cleanedCols report = length (firstRowKeys (cleanedData st)) /\
    columnAnalyses report = st_columnAnalyses st /\
    cleaningActions report = st_cleaningActions st /\
    featureEngineering report = st_featureEngineering st.
Proof.
  unfold processData, parseCSV.
  destruct (papa file) as [data errors|e]; [|discriminate].
  destruct errors as [|m ms]; [|discriminate].
  destruct data as [|row0 rest]; [discriminate|].
  simpl. intros H. injection H as <- <-.
  exists row0, rest. simpl. repeat split; reflexivity.
Qed.

End Pipeline.

(** ** Properties of the engine *)

Section Properties.
Context {host : JsHost}.

Lemma columnOf_processColumn_same st header :
  columnOf header (cleanedData (processColumn st header)) =
  columnOf header (cleanedOf header (cleanedData st)).
Proof.
  rewrite processColumn_spec. cbv zeta. simpl cleanedData.
  apply columnOf_engineer_other, header_not_synthesized.
Qed.

(** C3. In the turn of a column, with the missing count taken over the
    cells as they stand before the turn: a column inferred NUMERIC,
    CATEGORICAL or DATE appends exactly one CleaningAction, naming the
    column, when its missing count is positive and none otherwise; a column
    inferred TEXT or UNKNOWN appends none whatever its missing count; and
    whenever no action is appended the cells of the column are left as
    they were. *)
Theorem cleaning_action_iff st header :
  let values := columnOf header (cleanedData st) in
  let st' := processColumn st header in
  exists a,
    st_columnAnalyses st' = st_columnAnalyses st ++ [a] /\
    name a = header /\
    type a = inferColumnType values /\
    missingCount a = missingCountOf values /\
    let appended :=
      exists act,
        st_cleaningActions st' = st_cleaningActions st ++ [act] /\
        column act = header in
    let untouched :=
      st_cleaningActions st' = st_cleaningActions st /\
      columnOf header (cleanedData st') = values in
    match type a with
    | NUMERIC | CATEGORICAL | DATE =>
        if 0 <? missingCount a then appended else untouched
    | TEXT | UNKNOWN => untouched
    end.
Proof.
  intros values st'. exists (analysisOf header (cleanedData st)).
  subst st'. rewrite columnOf_processColumn_same.
  rewrite processColumn_spec. cbv zeta.
  simpl st_columnAnalyses. simpl st_cleaningActions.
  rewrite actionsOf_spec, cleanedOf_spec.
  repeat split;
    [apply analysisOf_name|apply analysisOf_type
    |apply analysisOf_missingCount|].
  unfold needsCleaning.
  destruct (type (analysisOf header (cleanedData st)));
    destruct (0 <? missingCount (analysisOf header (cleanedData st)));
    simpl; rewrite ?app_nil_r; try (split; reflexivity);
    eexists; split; reflexivity.
Qed.

(** X22. The same over a whole report: the cleaning actions name, in
    order, exactly the analysed columns with a positive missing count and
    an imputable type. *)
Lemma report_cleaning_actions file startTime endTime report cleaned :
  processData file startTime endTime = Resolved (report, cleaned) ->
  map column (cleaningActions report) =
  map name (filter needsCleaning (columnAnalyses report)).
Proof.
  intros H. apply processData_resolved in H.
  destruct H as (row0 & rest & _ & _ & H). cbv zeta in H.
  destruct H as (_ & _ & _ & _ & _ & -> & -> & _).
  now apply actions_run.
Qed.

(** C4. A processed dataset has as many cleaned rows as parsed rows, and
    the report's two row counts are that number. *)
Theorem row_count_preserved file startTime endTime report cleaned :
  processData file startTime endTime = Resolved (report, cleaned) ->
  exists rawData,
    parseCSV file = Resolved rawData /\
    length cleaned = length rawData /\
    cleanedRows report = length rawData /\
    initialRows report = length rawData.
Proof.
  intros H. apply processData_resolved in H.
  destruct H as (row0 & rest & _ & Hp & H). cbv zeta in H.
  destruct H as (-> & Hi & Hc & _).
  exists (row0 :: rest). rewrite Hi, Hc, length_run, length_start. auto.
Qed.

(** C8. In the turn of a column there is one fill value, the mean or the
    mode recorded in the column's analysis, such that afterwards every cell
    of the column that was not missing is as before and, when the column is
    imputed, every cell that was missing holds the fill value; imputation
    leaves the cells of every other column alone. *)
Theorem imputation_frame st header :
  let values := columnOf header (cleanedData st) in
  let st' := processColumn st header in
  exists a fill,
    st_columnAnalyses st' = st_columnAnalyses st ++ [a] /\
    match type a with
    | NUMERIC => exists m, mean (stats a) = Some m /\ fill = VNum m
    | CATEGORICAL | DATE => exists m, mode (stats a) = Some m /\ fill = VStr m
    | TEXT | UNKNOWN => needsCleaning a = false
    end /\
    columnOf header (cleanedData st') =
      map (fun v => if isMissing v && needsCleaning a then fill else v) values /\
    forall k, k <> header ->
      columnOf k (cleanedOf header (cleanedData st)) =
      columnOf k (cleanedData st).
Proof.
  intros values st'. subst st'.
  exists (analysisOf header (cleanedData st)), (fillOf header (cleanedData st)).
  rewrite columnOf_processColumn_same, cleanedOf_spec.
  split; [now rewrite processColumn_spec|]. split; [|split].
  - clear. open_analysis; rewrite ?andb_false_r; try reflexivity;
      eexists; split; reflexivity.
  - destruct (needsCleaning _).
    + rewrite columnOf_impute_same. apply map_ext. intros v.
      now rewrite andb_true_r.
    + subst values. rewrite <- (map_id (columnOf _ _)) at 1.
      apply map_ext. intros v. now rewrite andb_false_r.
  - intros k Hk. destruct (needsCleaning _); [|reflexivity].
    now apply columnOf_impute_other.
Qed.

(** C7. A parse that completes without errors and without rows rejects
    with the error this module makes for the empty dataset, and no report
    exists; an error listed by the parser rejects with this module's
    parsing error, whose message is the fixed prefix followed by the
    parser's first message unchanged; an error raised by the parser is the
    rejection itself.  The empty-dataset error is neither of the two. *)
Theorem empty_dataset_error file startTime endTime :
  let emptyError :=
    NewError "CSV file is empty or contains only headers." in
  match papa file with
  | Complete [] [] =>
      processData file startTime endTime = Rejected emptyError
  | Complete (_ :: _) [] =>
      exists result, processData file startTime endTime = Resolved result
  | Complete _ (message :: _) =>
      processData file startTime endTime =
        Rejected (NewError ("CSV Parsing Error: " ++ message)%string) /\
      NewError ("CSV Parsing Error: " ++ message)%string <> emptyError
  | Failed error =>
      processData file startTime endTime = Rejected (HostError error) /\
      HostError error <> emptyError
  end.
Proof.
  unfold processData, parseCSV.
  destruct (papa file) as [[|row0 rest] [|message errors]|error]; simpl;
    try reflexivity; try (split; [reflexivity|discriminate]).
  eexists. reflexivity.
Qed.

(** C10. The analysed columns are the keys of the first parsed row, in
    that row's order; a key outside them is named by no analysis, no
    cleaning action and no feature log entry, and unless it is one of the
    synthesized names of a header its cells come out as they were cloned;
    the final column count is the number of keys of the first cleaned
    row. *)
Theorem headers_from_first_row file startTime endTime report cleaned :
  processData file startTime endTime = Resolved (report, cleaned) ->
  exists row0 rest,
    parseCSV file = Resolved (row0 :: rest) /\
    map name (columnAnalyses report) = keys row0 /\
    initialCols report = length (keys row0) /\
    cleanedCols report = length (firstRowKeys cleaned) /\
    forall k, ~ In k (keys row0) ->
      (forall a, In a (columnAnalyses report) -> name a <> k) /\
      (forall a, In a (cleaningActions report) -> column a <> k) /\
      (forall i, In i (featureEngineering report) -> sourceColumn i <> k) /\
      ((forall h, In h (keys row0) ->
          ~ In k (dateColumns h ++ textColumns h)) ->
       columnOf k cleaned = columnOf k (deepCopy (row0 :: rest))).
Proof.
  intros H. apply processData_resolved in H.
  destruct H as (row0 & rest & _ & Hp & H). cbv zeta in H.
  destruct H as (-> & _ & _ & Hic & Hcc & Ha & Hc & Hf).
  exists row0, rest. split; [exact Hp|].
  assert (Hn := names_run (keys row0) (start (row0 :: rest))).
  destruct (logs_run (keys row0) (start (row0 :: rest))) as (La & Lf & _ & _).
  simpl in Hn, La, Lf. rewrite Ha, Hc, Hf, Hn.
  repeat split; try assumption.
  - intros a Hin <-. apply H. rewrite <- Hn. now apply in_map.
  - intros a Hin <-. apply H. rewrite Forall_forall in La. now apply La.
  - intros i Hin <-. apply H. rewrite Forall_forall in Lf. now apply Lf.
  - intros Hs. now apply columnOf_run_other.
Qed.

End Properties.

(** ** Type inference *)

Section Inference.
Context {host : JsHost}.

Lemma notMissing_iff v :
  notMissing v = true <-> v <> VNull /\ v <> VUndefined /\ v <> VStr "".
Proof.
  unfold notMissing. destruct v as [| |b|x|s]; simpl.
  - intuition congruence.
  - intuition congruence.
  - intuition congruence.
  - intuition congruence.
  - destruct (String.eqb s "") eqn:E; simpl.
    + apply String.eqb_eq in E. subst s. intuition congruence.
    + apply String.eqb_neq in E. intuition congruence.
Qed.

(** C2. Over the cells left once null, undefined and the empty string are
    removed, the checks run in order and the first that holds decides:
    none left gives UNKNOWN; else all numbers or numeric strings gives
    NUMERIC; else all strings that parse as dates gives DATE; else a
    distinct-to-total ratio below 0.5 together with more than 10 cells
    gives CATEGORICAL; else TEXT.  So at most 10 cells are never
    CATEGORICAL, and cells that are all numeric and all date-like are
    NUMERIC. *)
Theorem inference_order values :
  let present := filter notMissing values in
  let allNumeric := forallb numericLooking present in
  let allDates := forallb dateLooking present in
  let ratio := (ofNat (setSize present) / ofNat (length present))%float in
  let result := inferColumnType values in
  (forall v, In v present <->
     In v values /\ v <> VNull /\ v <> VUndefined /\ v <> VStr "") /\
  (present = [] -> result = UNKNOWN) /\
  (present <> [] -> allNumeric = true -> result = NUMERIC) /\
  (present <> [] -> allNumeric = false -> allDates = true -> result = DATE) /\
  (present <> [] -> allNumeric = false -> allDates = false ->
   (ratio <? 0.5)%float = true -> 10 < length present ->
   result = CATEGORICAL) /\
  (present <> [] -> allNumeric = false -> allDates = false ->
   (ratio <? 0.5)%float = false \/ length present <= 10 ->
   result = TEXT) /\
  (length present <= 10 -> result <> CATEGORICAL) /\
  (present <> [] -> allNumeric = true -> allDates = true -> result = NUMERIC).
Proof.
  intros present allNumeric allDates ratio result.
  assert (Hlen : present <> [] -> (length present =? 0) = false).
  { destruct present; [congruence|reflexivity]. }
  assert (Hdef : result =
            if length present =? 0 then UNKNOWN
            else if allNumeric then NUMERIC
            else if allDates then DATE
            else if (ratio <? 0.5)%float && (10 <? length present)
                 then CATEGORICAL else TEXT) by reflexivity.
  split; [|repeat split].
  - intros v. subst present. rewrite filter_In, notMissing_iff. tauto.
  - intros E. rewrite Hdef, E. reflexivity.
  - intros Hp Hn. now rewrite Hdef, (Hlen Hp), Hn.
  - intros Hp Hn Hd. now rewrite Hdef, (Hlen Hp), Hn, Hd.
  - intros Hp Hn Hd Hr Hl. rewrite Hdef, (Hlen Hp), Hn, Hd, Hr.
    apply Nat.ltb_lt in Hl. now rewrite Hl.
  - intros Hp Hn Hd Hr. rewrite Hdef, (Hlen Hp), Hn, Hd.
    destruct Hr as [Hr|Hr]; [now rewrite Hr|].
    apply Nat.ltb_ge in Hr. rewrite Hr. now rewrite andb_false_r.
  - intros Hl. rewrite Hdef. apply Nat.ltb_ge in Hl. rewrite Hl, andb_false_r.
    destruct (length present =? 0), allNumeric, allDates; discriminate.
  - intros Hp Hn _. now rewrite Hdef, (Hlen Hp), Hn.
Qed.

End Inference.

(** ** Feature synthesis *)

Section Features.
Context {host : JsHost}.

Lemma engineer_of_processColumn st header :
  let a := analysisOf header (cleanedData st) in
  let e := engineer header (type a) (cleanedOf header (cleanedData st)) in
  cleanedData (processColumn st header) = fst e /\
  st_featureEngineering (processColumn st header) =
    st_featureEngineering st ++ snd e.
Proof. rewrite processColumn_spec. split; reflexivity. Qed.

(** C6. In the turn of a column inferred DATE, one FeatureEngineeringInfo
    with the three new names is logged whatever the rows hold, and each
    row, as it stands after imputation, is treated on its own: when its
    cell gives no valid date the row is returned as it is; when it does,
    the row's [_year], [_month] and [_day] fields hold the full year, the
    raw month plus one (1 when the raw month is 0) and the day of the
    month, every other field is as before, and the row's keys are the old
    ones and the three names. *)
Theorem date_feature_synthesis st header :
  inferColumnType (columnOf header (cleanedData st)) = DATE ->
  let st' := processColumn st header in
  let y := (header ++ "_year")%string in
  let m := (header ++ "_month")%string in
  let d := (header ++ "_day")%string in
  st_featureEngineering st' =
    st_featureEngineering st ++
    [{| sourceColumn := header; newColumns := [y; m; d];
        description := "Extracted date parts" |}] /\
  cleanedData st' =
    map (dateFeaturesRow header) (cleanedOf header (cleanedData st)) /\
  forall row,
    let t := newDate (cell row header) in
    let row' := dateFeaturesRow header row in
    if isNaN t then row' = row
    else
      cell row' y = VNum (getFullYear t) /\
      cell row' m = VNum (getMonth t + 1)%float /\
      cell row' d = VNum (getDate t) /\
      (getMonth t = 0%float -> cell row' m = VNum 1%float) /\
      (forall k, ~ In k [y; m; d] -> lookup row' k = lookup row k) /\
      (forall k, In k (keys row') <-> In k (keys row) \/ In k [y; m; d]).
Proof.
  intros Ht st' y m d.
  destruct (engineer_of_processColumn st header) as [Hc Hf].
  cbv zeta in Hc, Hf. rewrite analysisOf_type, Ht in Hc, Hf.
  split; [exact Hf|]. split; [exact Hc|].
  intros row t row'. subst row'. unfold dateFeaturesRow. fold t.
  destruct (isNaN t); simpl negb; cbv iota; [reflexivity|].
  assert (Hym : y <> m) by (intros E; apply append_inv_head in E; discriminate).
  assert (Hyd : y <> d) by (intros E; apply append_inv_head in E; discriminate).
  assert (Hmd : m <> d) by (intros E; apply append_inv_head in E; discriminate).
  fold y m d. split; [|split; [|split; [|split; [|split]]]].
  - rewrite !cell_assign_other by congruence. apply cell_assign_same.
  - rewrite cell_assign_other by congruence. apply cell_assign_same.
  - apply cell_assign_same.
  - intros E. rewrite cell_assign_other by congruence.
    rewrite cell_assign_same, E. reflexivity.
  - intros k Hk. simpl in Hk.
    rewrite !lookup_assign_other; intuition congruence.
  - intros k. rewrite !In_keys_assign. simpl. intuition congruence.
Qed.

(** C9. In the turn of a column inferred TEXT every row gets its text
    metrics, no cell being imputed first; the number 0 is falsy, as every
    missing cell is; and a row whose cell is falsy gets a [_length] of 0
    and a [_word_count] of 0. *)
Theorem zero_cell_counts_as_blank st header :
  inferColumnType (columnOf header (cleanedData st)) = TEXT ->
  cleanedData (processColumn st header) =
    map (textFeaturesRow header) (cleanedData st) /\
  truthy (VNum 0) = false /\
  (forall v, isMissing v = true -> truthy v = false) /\
  forall row,
    truthy (cell row header) = false ->
    cell (textFeaturesRow header row) (header ++ "_length")%string
      = VNum 0%float /\
    cell (textFeaturesRow header row) (header ++ "_word_count")%string
      = VNum 0%float.
Proof.
  intros Ht.
  destruct (engineer_of_processColumn st header) as [Hc _].
  cbv zeta in Hc. rewrite analysisOf_type, Ht, cleanedOf_spec in Hc.
  unfold needsCleaning in Hc. rewrite analysisOf_type, Ht in Hc.
  rewrite andb_false_r in Hc.
  split; [exact Hc|]. split; [reflexivity|]. split.
  - intros [| |b|x|s]; simpl; try reflexivity; try discriminate.
    unfold isMissing. simpl. now intros ->.
  - intros row Hf. unfold textFeaturesRow. rewrite Hf. simpl String_.
    split.
    + rewrite cell_assign_other; [apply cell_assign_same|].
      intros E. apply append_inv_head in E. discriminate.
    + apply cell_assign_same.
Qed.

(** C1, on the column [1, 2, "", 4] of the specification.  Among the
    numbers the statistics are taken over, an empty string and a null
    stand as 0 and only an undefined cell is dropped.  So the column is
    NUMERIC with one missing cell; the recorded mean is 7/4, the blank cell
    having been counted as a 0 among four numbers, and the blank cell is
    filled with it; the mean of the three cells that are present is 7/3,
    which is another number.  A null in place of the blank is counted the
    same way. *)
Theorem scenarioA_mean_counts_blank_cell :
  let rows := singleColumn "x" scenarioA in
  let a := analysisOf "x" rows in
  (forall values,
     numericValuesOf (VStr "" :: values) = 0%float :: numericValuesOf values) /\
  (forall values,
     numericValuesOf (VNull :: values) = 0%float :: numericValuesOf values) /\
  (forall values,
     numericValuesOf (VUndefined :: values) = numericValuesOf values) /\
  type a = NUMERIC /\
  missingCount a = 1 /\
  numericValuesOf scenarioA = [1; 2; 0; 4]%float /\
  mean (stats a) = Some 1.75%float /\
  columnOf "x" (cleanedOf "x" rows) = [VNum 1; VNum 2; VNum 1.75; VNum 4] /\
  meanOfPresent scenarioA = (7 / 3)%float /\
  PrimFloat.eqb 1.75 (7 / 3) = false /\
  meanOf (numericValuesOf [VNum 1; VNum 2; VNull; VNum 4]) = 1.75%float.
Proof.
  split; [|split; [|split]]; try (intros values; reflexivity).
  repeat split; vm_compute; reflexivity.
Qed.

End Features.

(** ** The order of the keys *)

Section KeyOrder.
Context {A : Type}.
Implicit Types (o : Obj A) (k : string) (v : A).

Lemma digit_value c :
  isDigit c = true -> (48 <= N_of_ascii c <= 57)%N.
Proof.
  unfold isDigit, nat_of_ascii. intros H.
  apply andb_true_iff in H. destruct H as [H1 H2].
  apply Nat.leb_le in H1, H2. lia.
Qed.

Lemma digitsValue_bounds s acc n :
  digitsValue acc s = Some n ->
  (acc * 10 ^ N.of_nat (String.length s) <= n
   < (acc + 1) * 10 ^ N.of_nat (String.length s))%N.
Proof.
  revert acc. induction s as [|c r IH]; intros acc H.
  - simpl in H. injection H as <-. simpl. lia.
  - cbn [digitsValue] in H. destruct (isDigit c) eqn:Ec; [|discriminate].
    apply digit_value in Ec. apply IH in H.
    cbn [String.length].
    replace (N.of_nat (S (String.length r)))
      with (N.succ (N.of_nat (String.length r))) by lia.
    rewrite N.pow_succ_r'.
    set (p := (10 ^ N.of_nat (String.length r))%N) in *. nia.
Qed.

Lemma digitsValue_inj s t a b n :
  String.length s = String.length t ->
  digitsValue a s = Some n -> digitsValue b t = Some n -> a = b /\ s = t.
Proof.
  revert t a b. induction s as [|c r IH]; intros [|d u] a b Hlen Hs Ht;
    try discriminate Hlen.
  - simpl in Hs, Ht. split; congruence.
  - cbn [digitsValue] in Hs, Ht.
    destruct (isDigit c) eqn:Ec; [|discriminate].
    destruct (isDigit d) eqn:Ed; [|discriminate].
    apply digit_value in Ec, Ed. injection Hlen as Hlen.
    destruct (IH u _ _ Hlen Hs Ht) as [Hacc ->].
    assert (Hcd : N_of_ascii c = N_of_ascii d) by lia.
    split; [lia|]. f_equal.
    rewrite <- (ascii_N_embedding c), <- (ascii_N_embedding d). now f_equal.
Qed.

Lemma arrayIndex_digits k n :
  arrayIndex k = Some n ->
  digitsValue 0 k = Some n /\
  forall c r, k = String c r -> r <> EmptyString -> c <> "0"%char.
Proof.
  destruct k as [|c r]; [discriminate|]. unfold arrayIndex.
  destruct (Ascii.eqb c "0" && negb (String.eqb r "")) eqn:Ez; [discriminate|].
  destruct (10 <? String.length (String c r)); [discriminate|].
  destruct (digitsValue 0 (String c r)) as [m|]; [|discriminate].
  destruct (m <? 4294967295)%N; [|discriminate].
  intros H. injection H as <-. split; [reflexivity|].
  intros c' r' E Hr. injection E as <- <-. intros ->.
  apply String.eqb_neq in Hr. rewrite Hr in Ez. discriminate Ez.
Qed.

Lemma longer_index_is_larger k1 k2 n1 n2 :
  arrayIndex k1 = Some n1 -> arrayIndex k2 = Some n2 ->
  String.length k1 < String.length k2 -> (n1 < n2)%N.
Proof.
  intros H1 H2 Hlen.
  assert (Hk1 : 1 <= String.length k1)
    by (destruct k1; [discriminate H1|simpl; lia]).
  apply arrayIndex_digits in H1, H2.
  destruct H1 as [H1 _]. destruct H2 as [H2 Hlead].
  destruct k2 as [|c r]; [simpl in Hlen; lia|].
  assert (Hr : r <> EmptyString)
    by (intros ->; simpl in Hlen; lia).
  specialize (Hlead c r eq_refl Hr).
  cbn [digitsValue] in H2. destruct (isDigit c) eqn:Ec; [|discriminate].
  apply digit_value in Ec.
  assert (Hc : N_of_ascii c <> 48%N).
  { intros E. apply Hlead. rewrite <- (ascii_N_embedding c), E. reflexivity. }
  apply digitsValue_bounds in H1, H2.
  simpl String.length in Hlen.
  assert (Hpow : (10 ^ N.of_nat (String.length k1)
                  <= 10 ^ N.of_nat (String.length r))%N)
    by (apply N.pow_le_mono_r; lia).
  set (p := (10 ^ N.of_nat (String.length k1))%N) in *.
  set (q := (10 ^ N.of_nat (String.length r))%N) in *.
  nia.
Qed.

Lemma arrayIndex_inj k1 k2 n :
  arrayIndex k1 = Some n -> arrayIndex k2 = Some n -> k1 = k2.
Proof.
  intros H1 H2.
  destruct (Nat.lt_trichotomy (String.length k1) (String.length k2))
    as [Hlt|[Heq|Hgt]].
  - assert (H := longer_index_is_larger _ _ _ _ H1 H2 Hlt). lia.
  - apply arrayIndex_digits in H1, H2.
    destruct H1 as [H1 _]. destruct H2 as [H2 _].
    now destruct (digitsValue_inj _ _ _ _ _ Heq H1 H2).
  - assert (H := longer_index_is_larger _ _ _ _ H2 H1 Hgt). lia.
Qed.

Lemma strAdd_seen seen s : In s seen -> strAdd seen s = seen.
Proof.
  induction seen as [|t seen IH]; simpl; [tauto|].
  destruct (String.eqb t s) eqn:E; [reflexivity|].
  apply String.eqb_neq in E. intros [H|H]; [congruence|].
  now rewrite IH.
Qed.

Lemma strAdd_fresh seen s : ~ In s seen -> strAdd seen s = seen ++ [s].
Proof.
  induction seen as [|t seen IH]; simpl; intros H; [reflexivity|].
  destruct (String.eqb t s) eqn:E.
  - apply String.eqb_eq in E. tauto.
  - rewrite IH; tauto.
Qed.

(** A fresh array index lands among the array indices, in ascending
    order, ahead of every other key. *)
Lemma keys_insertIndex_ordered indexKeys : forall o otherKeys n k v,
  arrayIndex k = Some n ->
  ~ In k indexKeys ->
  keys o = indexKeys ++ otherKeys ->
  Forall (fun j => isIndexKey j = true) indexKeys ->
  Forall (fun j => isIndexKey j = false) otherKeys ->
  ascending indexKeys ->
  exists indexKeys',
    keys (insertIndex o n k v) = indexKeys' ++ otherKeys /\
    Forall (fun j => isIndexKey j = true) indexKeys' /\
    ascending indexKeys' /\
    (forall j, In j indexKeys' <-> j = k \/ In j indexKeys).
Proof.
  induction indexKeys as [|i indexKeys IH];
    intros o otherKeys n k v Hk Hfresh Hkeys Hidx Hoth Hasc.
  - exists [k]. simpl in Hkeys.
    assert (Hins : keys (insertIndex o n k v) = k :: otherKeys).
    { destruct o as [|[j y] o]; simpl in *.
      - now rewrite <- Hkeys.
      - rewrite <- Hkeys in Hoth. inversion Hoth as [|? ? Hj _]; subst.
        unfold isIndexKey in Hj.
        destruct (arrayIndex j); [discriminate|]. reflexivity. }
    rewrite Hins. split; [reflexivity|]. split; [|split].
    + constructor; [|constructor]. unfold isIndexKey. now rewrite Hk.
    + constructor; constructor.
    + intros j. simpl. intuition congruence.
  - destruct o as [|[j y] o]; [discriminate Hkeys|].
    simpl in Hkeys. injection Hkeys as -> Hkeys.
    inversion Hidx as [|? ? Hi Hidx']; subst.
    apply StronglySorted_inv in Hasc. destruct Hasc as [Hasc Hless].
    unfold isIndexKey in Hi. cbn [insertIndex].
    destruct (arrayIndex i) as [m|] eqn:Ei; [|discriminate].
    assert (Hm : indexValue i = m) by (unfold indexValue; now rewrite Ei).
    assert (Hn : indexValue k = n) by (unfold indexValue; now rewrite Hk).
    destruct (m <? n)%N eqn:Emn.
    + apply N.ltb_lt in Emn.
      destruct (IH o otherKeys n k v Hk) as (ks & Hks & Hall & Hsorted & Hin);
        auto.
      { intros H. apply Hfresh. now right. }
      exists (i :: ks). simpl. rewrite Hks. split; [reflexivity|].
      split; [|split].
      * constructor; [|exact Hall]. unfold isIndexKey. now rewrite Ei.
      * constructor; [exact Hsorted|]. apply Forall_forall. intros x Hx.
        apply Hin in Hx. destruct Hx as [->|Hx]; [lia|].
        rewrite Forall_forall in Hless. now apply Hless.
      * intros x. simpl. rewrite Hin. intuition congruence.
    + apply N.ltb_ge in Emn.
      assert (Hne : n <> m).
      { intros ->. apply Hfresh. left. now apply (arrayIndex_inj i k m). }
      exists (k :: i :: indexKeys). simpl. rewrite Hkeys.
      split; [reflexivity|]. split; [|split].
      * constructor; [unfold isIndexKey; now rewrite Hk|exact Hidx].
      * constructor.
        -- constructor; assumption.
        -- constructor; [lia|]. rewrite Forall_forall in Hless |- *.
           intros x Hx. specialize (Hless x Hx). lia.
      * intros x. simpl. intuition congruence.
Qed.

(** An assignment keeps the array indices ascending ahead of the other
    keys, and the other keys in the order of their first assignment. *)
Lemma keys_assign_ordered o k v indexKeys otherKeys :
  keys o = indexKeys ++ otherKeys ->
  Forall (fun j => isIndexKey j = true) indexKeys ->
  Forall (fun j => isIndexKey j = false) otherKeys ->
  ascending indexKeys ->
  exists indexKeys',
    keys (assign o k v) =
      indexKeys' ++ (if isIndexKey k then otherKeys else strAdd otherKeys k) /\
    Forall (fun j => isIndexKey j = true) indexKeys' /\
    Forall (fun j => isIndexKey j = false)
      (if isIndexKey k then otherKeys else strAdd otherKeys k) /\
    ascending indexKeys'.
Proof.
  intros Hkeys Hidx Hoth Hasc. unfold assign.
  destruct (lookup o k) as [x|] eqn:E.
  - exists indexKeys. rewrite keys_replace, Hkeys.
    assert (Hin : In k (indexKeys ++ otherKeys)).
    { rewrite <- Hkeys. apply lookup_In_keys. congruence. }
    destruct (isIndexKey k) eqn:Ek; [auto|].
    assert (Hk : In k otherKeys).
    { apply in_app_or in Hin. destruct Hin as [Hin|Hin]; [|exact Hin].
      rewrite Forall_forall in Hidx. apply Hidx in Hin. congruence. }
    rewrite strAdd_seen by exact Hk. auto.
  - assert (Hout : ~ In k (indexKeys ++ otherKeys)).
    { rewrite <- Hkeys, <- lookup_In_keys. congruence. }
    unfold isIndexKey. destruct (arrayIndex k) as [n|] eqn:Ek.
    + destruct (keys_insertIndex_ordered indexKeys o otherKeys n k v Ek)
        as (ks & Hks & Hall & Hsorted & _); auto.
      { intros H. apply Hout, in_or_app. now left. }
      exists ks. auto.
    + exists indexKeys. rewrite strAdd_fresh
        by (intros H; apply Hout, in_or_app; now right).
      unfold keys. rewrite map_app. fold (keys o). rewrite Hkeys.
      rewrite <- app_assoc. split; [reflexivity|]. split; [exact Hidx|].
      split; [|exact Hasc].
      apply Forall_app. split; [exact Hoth|].
      constructor; [|constructor]. unfold isIndexKey. now rewrite Ek.
Qed.

End KeyOrder.

(** ** The mode *)

Section Mode.
Context {host : JsHost}.
Implicit Types (counts : Obj Count) (pool : list string).

(** *** On every pool *)

(** A step of the tally either assigns under the string or, when the
    string names an accessor, leaves the tally as it is. *)
Lemma tallyStep_cases counts v :
  (swallowed v = true /\ lookup counts v = None /\ tallyStep counts v = counts)
  \/ exists c, tallyStep counts v = assign counts v c /\
               (lookup counts v <> None \/ swallowed v = false).
Proof.
  unfold tallyStep, writeCount, swallowed.
  destruct (lookup counts v) as [c|] eqn:E.
  - right. eexists. split; [reflexivity|]. left. congruence.
  - destruct (prototypeMember v) as [[text|text]|].
    + right. eexists. split; [reflexivity|]. now right.
    + left. auto.
    + right. eexists. split; [reflexivity|]. now right.
Qed.

Lemma In_keys_fold_tally pool counts k :
  In k (keys (fold_left tallyStep pool counts)) <->
  In k (keys counts) \/ (In k pool /\ swallowed k = false).
Proof.
  revert counts. induction pool as [|v pool IH]; intros counts; simpl.
  - tauto.
  - rewrite IH.
    destruct (tallyStep_cases counts v) as [(Hs & _ & ->)|(c & -> & Hc)].
    + split; [tauto|]. intros [H|[[->|H] Hk]]; auto. congruence.
    + rewrite In_keys_assign. split.
      * intros [[->|H]|[H Hk]]; auto.
        destruct Hc as [Hc|Hc]; [|auto].
        left. now apply lookup_In_keys.
      * intros [H|[[->|H] Hk]]; auto.
Qed.

Lemma NoDup_keys_fold_tally pool counts :
  NoDup (keys counts) -> NoDup (keys (fold_left tallyStep pool counts)).
Proof.
  revert counts. induction pool as [|v pool IH]; intros counts H; simpl.
  - exact H.
  - apply IH.
    destruct (tallyStep_cases counts v) as [(_ & _ & ->)|(c & -> & _)];
      [exact H|now apply NoDup_keys_assign].
Qed.

Lemma In_keys_tally pool k :
  In k (keys (tally pool)) <-> In k pool /\ swallowed k = false.
Proof. unfold tally. rewrite In_keys_fold_tally. simpl. tauto. Qed.

Lemma NoDup_keys_tally pool : NoDup (keys (tally pool)).
Proof. apply NoDup_keys_fold_tally. constructor. Qed.

(** [reduce] returns its initial value or one of the keys. *)
Lemma reduce_chooses counts ks init :
  let r := fold_left (fun a b => if countGt counts a b then a else b) ks init in
  r = init \/ In r ks.
Proof.
  revert init. induction ks as [|b ks IH]; intros init; simpl; [auto|].
  destruct (IH (if countGt counts init b then init else b)) as [H|H];
    [|auto].
  rewrite H. destruct (countGt counts init b); auto.
Qed.

(** Nothing is stored and nothing is inherited under the empty name, so
    that the first key replaces the initial value of [reduce]. *)
Lemma countGt_initial counts b :
  lookup counts "" = None -> countGt counts "" b = false.
Proof.
  intros H. unfold countGt, readCount.
  now rewrite H, prototype_no_empty_name.
Qed.

(** The mode of a pool without the empty string is one of the keys of
    the tally, when there is a key. *)
Lemma modeOf_In_keys pool :
  ~ In EmptyString pool ->
  keys (tally pool) <> [] -> In (modeOf pool) (keys (tally pool)).
Proof.
  intros Hempty Hkeys. unfold modeOf.
  assert (Hinit : lookup (tally pool) "" = None).
  { destruct (lookup (tally pool) "") eqn:E; [|reflexivity].
    exfalso. apply Hempty.
    apply (proj1 (In_keys_tally pool "")), lookup_In_keys. congruence. }
  destruct (keys (tally pool)) as [|b ks]; [congruence|].
  simpl. rewrite countGt_initial by exact Hinit.
  destruct (reduce_chooses (tally pool) ks b) as [H|H];
    [rewrite H; now left|right; exact H].
Qed.

(** *** On a pool of ordinary strings *)

Lemma countIn_assign_same counts v n :
  countIn (assign counts v (CNum n)) v = n.
Proof. unfold countIn. now rewrite lookup_assign_same. Qed.

Lemma countIn_assign_other counts v s c :
  s <> v -> countIn (assign counts v c) s = countIn counts s.
Proof. intros H. unfold countIn. now rewrite lookup_assign_other. Qed.

Lemma numeric_assign counts v n :
  numeric counts -> numeric (assign counts v (CNum n)).
Proof.
  intros H k s. destruct (string_dec k v) as [->|Hne].
  - rewrite lookup_assign_same. discriminate.
  - rewrite lookup_assign_other by exact Hne. apply H.
Qed.

(** On numbers and an ordinary string the step is the one the source
    reads as: the count so far, or 0, plus 1. *)
Lemma tallyStep_ordinary counts v :
  ordinary v -> numeric counts ->
  tallyStep counts v = assign counts v (CNum (countIn counts v + 1)).
Proof.
  unfold ordinary, tallyStep, writeCount, readCount, countIn.
  intros Hv Hnum. rewrite Hv.
  destruct (lookup counts v) as [[n|s]|] eqn:E; try reflexivity.
  exfalso. exact (Hnum v s E).
Qed.

Lemma fold_tally_ordinary pool counts :
  Forall ordinary pool -> numeric counts ->
  numeric (fold_left tallyStep pool counts) /\
  forall s,
    countIn (fold_left tallyStep pool counts) s =
    countIn counts s + occurrences pool s.
Proof.
  intros Hpool. revert counts.
  induction Hpool as [|v pool Hv Hpool IH]; intros counts Hnum; simpl.
  - split; [exact Hnum|]. intros s. unfold occurrences. simpl. lia.
  - rewrite tallyStep_ordinary by assumption.
    destruct (IH _ (numeric_assign counts v (countIn counts v + 1) Hnum))
      as [Hnum' Hcount].
    split; [exact Hnum'|]. intros s. rewrite Hcount. unfold occurrences.
    simpl. destruct (string_dec v s) as [->|Hne].
    + rewrite countIn_assign_same. lia.
    + rewrite countIn_assign_other by congruence. lia.
Qed.

Lemma numeric_empty : numeric [].
Proof. intros k s. discriminate. Qed.

Lemma ordinary_not_swallowed s : ordinary s -> swallowed s = false.
Proof. unfold ordinary, swallowed. now intros ->. Qed.

Lemma In_keys_tally_ordinary pool k :
  Forall ordinary pool -> In k (keys (tally pool)) <-> In k pool.
Proof.
  intros Hpool. rewrite In_keys_tally. split; [tauto|].
  intros H. split; [exact H|]. apply ordinary_not_swallowed.
  rewrite Forall_forall in Hpool. now apply Hpool.
Qed.

(** The tally of a pool of ordinary strings holds, under each of them,
    the number of its occurrences. *)
Lemma lookup_tally pool s :
  Forall ordinary pool ->
  lookup (tally pool) s =
  if in_dec string_dec s pool then Some (CNum (occurrences pool s)) else None.
Proof.
  intros Hpool.
  destruct (fold_tally_ordinary pool [] Hpool numeric_empty) as [Hnum Hcount].
  fold (tally pool) in Hnum, Hcount. specialize (Hcount s).
  unfold countIn in Hcount. simpl in Hcount.
  destruct (in_dec string_dec s pool) as [Hin|Hout].
  - apply (In_keys_tally_ordinary pool s Hpool), lookup_In_keys in Hin.
    destruct (lookup (tally pool) s) as [[n|t]|] eqn:E.
    + now rewrite Hcount.
    + exfalso. exact (Hnum s t E).
    + congruence.
  - destruct (lookup (tally pool) s) eqn:E; [|reflexivity].
    exfalso. apply Hout, (In_keys_tally_ordinary pool s Hpool), lookup_In_keys.
    congruence.
Qed.

Lemma countGt_tally pool a b :
  Forall ordinary pool -> ordinary a -> ordinary b ->
  countGt (tally pool) a b =
  if in_dec string_dec a pool then
    if in_dec string_dec b pool
    then occurrences pool b <? occurrences pool a
    else false
  else false.
Proof.
  intros Hpool Ha Hb. unfold countGt, readCount.
  rewrite !lookup_tally by exact Hpool. unfold ordinary in Ha, Hb.
  rewrite Ha, Hb.
  destruct (in_dec string_dec a pool), (in_dec string_dec b pool); reflexivity.
Qed.

(** The reduction keeps the last key that no key exceeds. *)
Lemma reduce_last_most_frequent pool ks init :
  Forall ordinary pool -> ordinary init ->
  ~ In init pool ->
  (forall k, In k ks -> In k pool) ->
  let r :=
    fold_left (fun a b => if countGt (tally pool) a b then a else b) ks init in
  (ks = [] /\ r = init) \/
  exists before after,
    ks = before ++ r :: after /\
    (forall s, In s before -> occurrences pool s <= occurrences pool r) /\
    (forall s, In s after -> occurrences pool s < occurrences pool r).
Proof.
  intros Hpool Hord Hinit.
  assert (Hin : forall s, In s pool -> ordinary s)
    by (now apply Forall_forall).
  induction ks as [|b ks IH] using rev_ind; intros Hks r.
  - left. auto.
  - right. subst r. rewrite fold_left_app. simpl.
    assert (Hb : In b pool) by (apply Hks, in_or_app; simpl; auto).
    destruct IH as [[-> ->]|(before & after & Hsplit & Hbefore & Hafter)].
    + intros k Hk. apply Hks, in_or_app. auto.
    + simpl. rewrite countGt_tally by auto.
      destruct (in_dec string_dec init pool); [contradiction|].
      exists [], []. simpl. repeat split; intros s [].
    + set (r := fold_left _ ks init) in *.
      assert (Hr : In r pool).
      { apply Hks, in_or_app. left. rewrite Hsplit.
        apply in_or_app. simpl. auto. }
      rewrite countGt_tally by auto.
      destruct (in_dec string_dec r pool); [|contradiction].
      destruct (in_dec string_dec b pool); [|contradiction].
      destruct (occurrences pool b <? occurrences pool r) eqn:E.
      * apply Nat.ltb_lt in E. exists before, (after ++ [b]).
        rewrite Hsplit at 1. rewrite <- app_assoc. simpl.
        repeat split; auto.
        intros s Hs. apply in_app_or in Hs. destruct Hs as [Hs|[<-|[]]]; auto.
      * apply Nat.ltb_ge in E. exists ks, []. repeat split.
        -- intros s Hs. rewrite Hsplit in Hs. apply in_app_or in Hs.
           destruct Hs as [Hs|[<-|Hs]].
           ++ specialize (Hbefore s Hs). lia.
           ++ exact E.
           ++ specialize (Hafter s Hs). lia.
        -- intros s [].
Qed.

(** The keys of the tally of a pool of ordinary strings: the array
    indices, ascending, then the other strings of the pool in the order
    of their first occurrence. *)
Lemma keys_fold_tally_ordered pool : forall counts indexKeys otherKeys,
  Forall ordinary pool ->
  keys counts = indexKeys ++ otherKeys ->
  Forall (fun j => isIndexKey j = true) indexKeys ->
  Forall (fun j => isIndexKey j = false) otherKeys ->
  ascending indexKeys ->
  exists indexKeys',
    keys (fold_left tallyStep pool counts) =
      indexKeys' ++
      fold_left strAdd (filter (fun s => negb (isIndexKey s)) pool) otherKeys /\
    Forall (fun j => isIndexKey j = true) indexKeys' /\
    ascending indexKeys'.
Proof.
  induction pool as [|v pool IH];
    intros counts indexKeys otherKeys Hpool Hkeys Hidx Hoth Hasc.
  - exists indexKeys. auto.
  - inversion Hpool as [|? ? Hv Hpool']; subst. cbn [fold_left filter].
    destruct (tallyStep_cases counts v) as [(Hs & _)|(c & -> & _)].
    { rewrite ordinary_not_swallowed in Hs by exact Hv. discriminate. }
    destruct (keys_assign_ordered counts v c indexKeys otherKeys)
      as (ks & Hks & Hall & Hothers & Hsorted); auto.
    destruct (isIndexKey v); cbn [negb fold_left]; eapply IH; eauto.
Qed.

Lemma keys_tally_ordered pool :
  Forall ordinary pool ->
  exists indexKeys,
    keys (tally pool) =
      indexKeys ++ distinctStrings (filter (fun s => negb (isIndexKey s)) pool) /\
    Forall (fun j => isIndexKey j = true) indexKeys /\
    ascending indexKeys.
Proof.
  intros Hpool.
  apply (keys_fold_tally_ordered pool [] [] []); auto; constructor.
Qed.

Lemma stringValuesOf_In values s :
  In s (stringValuesOf values) <->
  In (VStr s) values /\ trim s <> EmptyString.
Proof.
  unfold stringValuesOf. rewrite in_flat_map. split.
  - intros (v & Hv & Hs). destruct v as [| |b|x|t]; try contradiction.
    destruct (String.eqb (trim t) "") eqn:E; simpl in Hs; [contradiction|].
    destruct Hs as [<-|[]]. apply String.eqb_neq in E. auto.
  - intros [Hv Hs]. exists (VStr s). split; [exact Hv|].
    apply String.eqb_neq in Hs. rewrite Hs. simpl. auto.
Qed.

Lemma stringValuesOf_not_empty values : ~ In EmptyString (stringValuesOf values).
Proof. rewrite stringValuesOf_In. intros [_ H]. now apply H. Qed.

End Mode.

Section ModeOfColumn.
Context {host : JsHost}.

(** C5, amended.  For a column inferred CATEGORICAL or DATE, the mode
    recorded in the statistics is the value written into the missing
    cells.  It is taken over the pool of string cells that are not blank
    once trimmed.  Let no string of the pool name a member of
    [Object.prototype].  Then the tally holds, under each string of the
    pool, the number of its occurrences; its keys are the strings of the
    pool without repetition, in this order: the array indices first,
    ascending, then the other strings in the order of their first
    occurrence.  With an empty pool the mode is the empty string.
    Otherwise it is a string of the pool that none exceeds in
    occurrences, and every key after it occurs strictly less often: of
    several most frequent strings the last in key order is the mode. *)
Theorem mode_is_last_most_frequent header rows :
  let values := columnOf header rows in
  let pool := stringValuesOf values in
  let a := analysisOf header rows in
  type a = CATEGORICAL \/ type a = DATE ->
  Forall ordinary pool ->
  exists m,
    mode (stats a) = Some m /\
    columnOf header (cleanedOf header rows) =
      map (fun v => if isMissing v && (0 <? missingCount a) then VStr m else v)
        values /\
    (forall s, In s pool <-> In (VStr s) values /\ trim s <> EmptyString) /\
    (forall s, In s pool ->
               lookup (tally pool) s = Some (CNum (occurrences pool s))) /\
    NoDup (keys (tally pool)) /\
    (forall s, In s (keys (tally pool)) <-> In s pool) /\
    (exists indexKeys,
       keys (tally pool) =
         indexKeys ++
         distinctStrings (filter (fun s => negb (isIndexKey s)) pool) /\
       Forall (fun k => isIndexKey k = true) indexKeys /\
       ascending indexKeys) /\
    (pool = [] -> m = EmptyString) /\
    (pool <> [] ->
     In m pool /\
     (forall s, In s pool -> occurrences pool s <= occurrences pool m) /\
     exists before after,
       keys (tally pool) = before ++ m :: after /\
       forall s, In s after -> occurrences pool s < occurrences pool m).
Proof.
  intros values pool a Ht Hpool. exists (modeOf pool).
  assert (Hty : type a = inferColumnType values) by apply analysisOf_type.
  assert (Hstat : mode (stats a) = Some (modeOf pool)).
  { subst a pool values. clear Hty Hpool. revert Ht. open_analysis;
      intros [?|?]; try discriminate; reflexivity. }
  assert (Hfill : fillOf header rows = VStr (modeOf pool)).
  { unfold fillOf. fold values. rewrite <- Hty.
    destruct Ht as [-> | ->]; reflexivity. }
  assert (Hkeys : forall s, In s (keys (tally pool)) <-> In s pool)
    by (intros s; now apply In_keys_tally_ordinary).
  split; [exact Hstat|].
  split; [|split; [|split; [|split; [|split; [|split; [|split]]]]]].
  - rewrite cleanedOf_spec. fold a. unfold needsCleaning.
    assert (Hi : imputable (type a) = true)
      by (destruct Ht as [-> | ->]; reflexivity).
    rewrite Hi, andb_true_r.
    destruct (0 <? missingCount a).
    + rewrite columnOf_impute_same, Hfill. apply map_ext. intros v.
      now rewrite andb_true_r.
    + fold values. rewrite <- (map_id values) at 1. apply map_ext.
      intros v. now rewrite andb_false_r.
  - intros s. apply stringValuesOf_In.
  - intros s Hs. rewrite lookup_tally by exact Hpool.
    destruct (in_dec string_dec s pool); [reflexivity|contradiction].
  - apply NoDup_keys_tally.
  - exact Hkeys.
  - now apply keys_tally_ordered.
  - intros E. unfold modeOf. rewrite E. reflexivity.
  - intros Hne.
    assert (Hred := reduce_last_most_frequent pool (keys (tally pool))
                      EmptyString Hpool prototype_no_empty_name
                      (stringValuesOf_not_empty values)
                      (fun k => proj1 (Hkeys k))).
    destruct Hred as [[Hk _]|(before & after & Hsplit & Hbefore & Hafter)].
    + exfalso. destruct pool as [|s pool'] eqn:Epool; [congruence|].
      assert (Hin : In s (keys (tally (s :: pool'))))
        by (apply Hkeys; simpl; auto).
      rewrite Hk in Hin. exact Hin.
    + fold (modeOf pool) in Hsplit, Hbefore, Hafter.
      assert (Hm : In (modeOf pool) pool).
      { apply Hkeys. rewrite Hsplit. apply in_or_app. simpl. auto. }
      split; [exact Hm|]. split.
      * intros s Hs. apply Hkeys in Hs. rewrite Hsplit in Hs.
        apply in_app_or in Hs. destruct Hs as [Hs|[<-|Hs]].
        -- now apply Hbefore.
        -- lia.
        -- specialize (Hafter s Hs). lia.
      * exists before, after. split; [exact Hsplit|exact Hafter].
Qed.

End ModeOfColumn.

(** ** The scenarios, on the reference host *)

(** Runs [processData] on a file and hands the outcome to a theorem about
    resolved runs. *)
Ltac resolved_run file thm :=
  let v := eval vm_compute in (@processData RefHost.host file 0%float 1000%float) in
  match v with
  | Resolved (?r, ?c) =>
      assert (H : @processData RefHost.host file 0%float 1000%float
                  = Resolved (r, c)) by (vm_compute; reflexivity);
      exists r, c; split; [exact H|exact (thm RefHost.host file _ _ r c H)]
  end.

(** C2, on a column of years held as strings, which look numeric and
    date-like at once. *)
Lemma inference_order_years :
  filter notMissing yearsColumn <> [] /\
  forallb (@numericLooking RefHost.host) (filter notMissing yearsColumn) = true /\
  forallb (@dateLooking RefHost.host) (filter notMissing yearsColumn) = true /\
  @inferColumnType RefHost.host yearsColumn = NUMERIC.
Proof.
  assert (H1 : filter notMissing yearsColumn <> []) by discriminate.
  assert (H2 : forallb (@numericLooking RefHost.host)
                 (filter notMissing yearsColumn) = true)
    by (vm_compute; reflexivity).
  assert (H3 : forallb (@dateLooking RefHost.host)
                 (filter notMissing yearsColumn) = true)
    by (vm_compute; reflexivity).
  split; [exact H1|]. split; [exact H2|]. split; [exact H3|].
  destruct (@inference_order RefHost.host yearsColumn)
    as (_ & _ & _ & _ & _ & _ & _ & H).
  exact (H H1 H2 H3).
Defined.

(** Scenarios B and C of the specification: twelve cells of two colours
    and two blanks are CATEGORICAL and the blanks are filled with the more
    frequent colour; five distinct letters are TEXT. *)
Example scenarioB_categorical :
  let rows := singleColumn "c" scenarioB in
  @inferColumnType RefHost.host scenarioB = CATEGORICAL /\
  mode (stats (@analysisOf RefHost.host "c" rows)) = Some "red" /\
  skipn 12 (columnOf "c" (@cleanedOf RefHost.host "c" rows))
    = [VStr "red"; VStr "red"].
Proof. repeat split; vm_compute; reflexivity. Qed.

Example scenarioC_text : @inferColumnType RefHost.host scenarioC = TEXT.
Proof. vm_compute. reflexivity. Qed.

(** C4, on the column [1, 2, "", 4]. *)
Lemma row_count_preserved_scenarioA :
  exists report cleaned,
    @processData RefHost.host (csv (singleColumn "x" scenarioA)) 0%float 1000%float
      = Resolved (report, cleaned) /\
    exists rawData,
      @parseCSV (csv (singleColumn "x" scenarioA)) = Resolved rawData /\
      length cleaned = length rawData /\
      cleanedRows report = length rawData /\
      initialRows report = length rawData.
Proof.
  resolved_run (csv (singleColumn "x" scenarioA)) @row_count_preserved.
Defined.

(** C5, as stated, fails on twelve cells that alternate between "a" and
    "b": the column is CATEGORICAL, the tally's keys are "a" then "b" with
    six occurrences each, the first key that no other exceeds is "a", and
    the recorded mode is "b". *)
Lemma tie_goes_to_the_later_key :
  let pool := stringValuesOf tiedColumn in
  let a := @analysisOf RefHost.host "x" (singleColumn "x" tiedColumn) in
  type a = CATEGORICAL /\
  @tally RefHost.host pool = [("a", CNum 6); ("b", CNum 6)] /\
  keys (@tally RefHost.host pool) = ["a"; "b"] /\
  occurrences pool "a" = 6 /\
  occurrences pool "b" = 6 /\
  @firstMostFrequent RefHost.host pool = "a" /\
  mode (stats a) = Some "b" /\
  mode (stats a) <> Some (@firstMostFrequent RefHost.host pool).
Proof.
  repeat split; try (vm_compute; reflexivity).
  vm_compute. discriminate.
Qed.

(** C5, amended, on a DATE column where one date occurs twice and a
    blank cell is filled; no date names a member of [Object.prototype]. *)
Lemma mode_is_last_most_frequent_dates :
  let rows := singleColumn "d" datesColumn in
  (type (@analysisOf RefHost.host "d" rows) = CATEGORICAL \/
   type (@analysisOf RefHost.host "d" rows) = DATE) /\
  Forall (@ordinary RefHost.host) (stringValuesOf (columnOf "d" rows)) /\
  exists m,
    mode (stats (@analysisOf RefHost.host "d" rows)) = Some m /\
    columnOf "d" (@cleanedOf RefHost.host "d" rows) =
      map (fun v =>
             if isMissing v
                && (0 <? missingCount (@analysisOf RefHost.host "d" rows))
             then VStr m else v)
        (columnOf "d" rows).
Proof.
  intros rows.
  assert (Ht : type (@analysisOf RefHost.host "d" rows) = CATEGORICAL \/
               type (@analysisOf RefHost.host "d" rows) = DATE)
    by (right; vm_compute; reflexivity).
  assert (Hp : Forall (@ordinary RefHost.host)
                 (stringValuesOf (columnOf "d" rows)))
    by (vm_compute; repeat constructor).
  split; [exact Ht|]. split; [exact Hp|].
  destruct (@mode_is_last_most_frequent RefHost.host "d" rows Ht Hp)
    as (m & Hm & Hc & _).
  exists m. split; [exact Hm|exact Hc].
Defined.

(** The order of the keys and the choice among ties, on a CATEGORICAL
    column of twelve cells: the array indices "2" and "10" come first,
    ascending by value, then "b" and "a" as first met; each occurs three
    times and the last key is the mode. *)
Example keys_of_indexed_column :
  let pool := stringValuesOf indexedColumn in
  let a := @analysisOf RefHost.host "x" (singleColumn "x" indexedColumn) in
  type a = CATEGORICAL /\
  @tally RefHost.host pool =
    [("2", CNum 3); ("10", CNum 3); ("b", CNum 3); ("a", CNum 3)] /\
  mode (stats a) = Some "a".
Proof. repeat split; vm_compute; reflexivity. Qed.

(** What the tally makes of a string that names a member of
    [Object.prototype]: under "constructor" it holds the text of the
    inherited function followed by one 1 for each occurrence, which
    compares as NaN with a number, so that five "a" win over seven
    "constructor"; under "__proto__" it holds nothing, so that the mode is
    the empty string while the unique count is 1. *)
Example tally_reads_through_the_prototype :
  let pool := repeat "constructor" 7 ++ repeat "a" 5 in
  @tally RefHost.host pool =
    [("constructor", CText "function Object() { [native code] }1111111");
     ("a", CNum 5)] /\
  @modeOf RefHost.host pool = "a" /\
  @tally RefHost.host (repeat "__proto__" 12) = [] /\
  @modeOf RefHost.host (repeat "__proto__" 12) = "" /\
  uniqueCount (repeat "__proto__" 12) = 1.
Proof. repeat split; vm_compute; reflexivity. Qed.

(** C6, on the same DATE column: one log entry, and the rows are the
    imputed ones with their date parts. *)
Lemma date_feature_synthesis_dates :
  let st := start (singleColumn "d" datesColumn) in
  @inferColumnType RefHost.host (columnOf "d" (cleanedData st)) = DATE /\
  st_featureEngineering (@processColumn RefHost.host st "d") =
    st_featureEngineering st ++
    [{| sourceColumn := "d"; newColumns := ["d_year"; "d_month"; "d_day"];
        description := "Extracted date parts" |}] /\
  cleanedData (@processColumn RefHost.host st "d") =
    map (@dateFeaturesRow RefHost.host "d")
      (@cleanedOf RefHost.host "d" (cleanedData st)).
Proof.
  intros st.
  assert (Ht : @inferColumnType RefHost.host (columnOf "d" (cleanedData st))
               = DATE) by (vm_compute; reflexivity).
  split; [exact Ht|].
  destruct (@date_feature_synthesis RefHost.host st "d" Ht) as (Hf & Hc & _).
  split; [exact Hf|exact Hc].
Defined.

(** The date parts that scenario produces: January is month 1. *)
Example date_parts_of_dates :
  let st := @processColumn RefHost.host (start (singleColumn "d" datesColumn)) "d" in
  columnOf "d" (cleanedData st) =
    [VStr "2021-01-15"; VStr "2021-01-15"; VStr "2021-05-01";
     VStr "2021-01-15"] /\
  columnOf "d_year" (cleanedData st) =
    [VNum 2021; VNum 2021; VNum 2021; VNum 2021] /\
  columnOf "d_month" (cleanedData st) = [VNum 1; VNum 1; VNum 5; VNum 1] /\
  columnOf "d_day" (cleanedData st) = [VNum 15; VNum 15; VNum 1; VNum 15].
Proof. repeat split; vm_compute; reflexivity. Qed.

(** C9, on a TEXT column holding a sentence, the number 0, null and the
    empty string. *)
Lemma zero_cell_counts_as_blank_notes :
  let st := start (singleColumn "note" notesColumn) in
  @inferColumnType RefHost.host (columnOf "note" (cleanedData st)) = TEXT /\
  truthy (cell [("note", VNum 0)] "note") = false /\
  cleanedData (@processColumn RefHost.host st "note") =
    map (@textFeaturesRow RefHost.host "note") (cleanedData st) /\
  cell (@textFeaturesRow RefHost.host "note" [("note", VNum 0)]) "note_length"
    = VNum 0 /\
  cell (@textFeaturesRow RefHost.host "note" [("note", VNum 0)])
    "note_word_count" = VNum 0.
Proof.
  intros st.
  assert (Ht : @inferColumnType RefHost.host
                 (columnOf "note" (cleanedData st)) = TEXT)
    by (vm_compute; reflexivity).
  assert (Hz : truthy (cell [("note", VNum 0)] "note") = false)
    by reflexivity.
  split; [exact Ht|]. split; [exact Hz|].
  destruct (@zero_cell_counts_as_blank RefHost.host st "note" Ht)
    as (Hc & _ & _ & Hrow).
  split; [exact Hc|exact (Hrow [("note", VNum 0)] Hz)].
Defined.

(** The text metrics that scenario produces. *)
Example text_metrics_of_notes :
  let st := @processColumn RefHost.host (start (singleColumn "note" notesColumn)) "note" in
  columnOf "note" (cleanedData st) = notesColumn /\
  columnOf "note_length" (cleanedData st) = [VNum 11; VNum 0; VNum 0; VNum 0] /\
  columnOf "note_word_count" (cleanedData st) = [VNum 2; VNum 0; VNum 0; VNum 0].
Proof. repeat split; vm_compute; reflexivity. Qed.

(** C10, on two rows of which the second alone has the key "extra". *)
Lemma headers_from_first_row_ragged :
  exists report cleaned,
    @processData RefHost.host (csv raggedRows) 0%float 1000%float
      = Resolved (report, cleaned) /\
    exists row0 rest,
      @parseCSV (csv raggedRows) = Resolved (row0 :: rest) /\
      map name (columnAnalyses report) = keys row0 /\
      initialCols report = length (keys row0) /\
      cleanedCols report = length (firstRowKeys cleaned) /\
      forall k, ~ In k (keys row0) ->
        (forall a, In a (columnAnalyses report) -> name a <> k) /\
        (forall a, In a (cleaningActions report) -> column a <> k) /\
        (forall i, In i (featureEngineering report) -> sourceColumn i <> k) /\
        ((forall h, In h (keys row0) ->
            ~ In k (dateColumns h ++ textColumns h)) ->
         columnOf k cleaned = columnOf k (deepCopy (row0 :: rest))).
Proof.
  resolved_run (csv raggedRows) @headers_from_first_row.
Defined.

(** That scenario's outcome: "id" is imputed, "when" gets its date parts,
    and the null under "extra" stays. *)
Example ragged_rows_outcome :
  exists report,
    @processData RefHost.host (csv raggedRows) 0%float 1000%float =
    Resolved
      (report,
       [[("id", VNum 1); ("when", VStr "2021-05-01"); ("when_year", VNum 2021);
         ("when_month", VNum 5); ("when_day", VNum 1)];
        [("id", VNum 0.5); ("when", VStr "2021-05-02"); ("extra", VNull);
         ("when_year", VNum 2021); ("when_month", VNum 5);
         ("when_day", VNum 2)]]) /\
    map name (columnAnalyses report) = ["id"; "when"] /\
    map column (cleaningActions report) = ["id"] /\
    map sourceColumn (featureEngineering report) = ["when"] /\
    initialCols report = 2 /\
    cleanedCols report = 5.
Proof. eexists. repeat split; vm_compute; reflexivity. Qed.

(** ** Further properties of the engine *)

Section FeatureLog.
Context {host : JsHost}.

Lemma engineer_log header rows a :
  name a = header ->
  snd (engineer header (type a) rows) =
  if engineered a then [featureInfoOf a] else [].
Proof.
  intros <-. unfold engineer, engineered, featureInfoOf.
  destruct (type a); reflexivity.
Qed.

Lemma features_run headers st :
  st_featureEngineering st =
    map featureInfoOf (filter engineered (st_columnAnalyses st)) ->
  st_featureEngineering (run headers st) =
    map featureInfoOf (filter engineered (st_columnAnalyses (run headers st))).
Proof.
  intros H0. induction headers as [|h hs IH] using rev_ind; [exact H0|].
  rewrite run_snoc, processColumn_spec. cbv zeta.
  simpl st_featureEngineering. simpl st_columnAnalyses.
  rewrite filter_app, map_app, IH. f_equal.
  rewrite (engineer_log h _ (analysisOf h (cleanedData (run hs st))))
    by apply analysisOf_name.
  simpl. destruct (engineered _); reflexivity.
Qed.

(** X1. The feature log of a report is, in order, one entry for each
    analysed column inferred DATE or TEXT and none for any other: the
    three date names for a DATE column, the two text names for a TEXT
    column. *)
Theorem feature_log_of_report file startTime endTime report cleaned :
  processData file startTime endTime = Resolved (report, cleaned) ->
  featureEngineering report =
  map featureInfoOf (filter engineered (columnAnalyses report)).
Proof.
  intros H. apply processData_resolved in H.
  destruct H as (row0 & rest & _ & _ & H). cbv zeta in H.
  destruct H as (_ & _ & _ & _ & _ & -> & _ & ->).
  now apply features_run.
Qed.

End FeatureLog.

Section Words.

Lemma splitWs_not_nil skipping s : splitWs skipping s <> [].
Proof.
  revert skipping. induction s as [|c r IH]; intros skipping; simpl.
  - discriminate.
  - destruct (isWhiteSpace c).
    + destruct skipping; [apply IH|discriminate].
    + destruct (splitWs false r); discriminate.
Qed.

Lemma nonEmptyPieces_skipping s :
  nonEmptyPieces (splitWs true s) = nonEmptyPieces (splitWs false s).
Proof.
  destruct s as [|c r]; simpl; [reflexivity|].
  destruct (isWhiteSpace c); reflexivity.
Qed.

Lemma first_piece_starts_word s :
  negb (String.eqb (hd EmptyString (splitWs false s)) "") = startsWord s.
Proof.
  destruct s as [|c r]; simpl; [reflexivity|].
  destruct (isWhiteSpace c); simpl; [reflexivity|].
  destruct (splitWs false r); reflexivity.
Qed.

Lemma wordStarts_after_space s :
  wordStarts true s = (if startsWord s then 1 else 0) + wordStarts false s.
Proof.
  destruct s as [|c r]; simpl; [reflexivity|].
  destruct (isWhiteSpace c); reflexivity.
Qed.

Lemma nonEmptyPieces_wordStarts s :
  nonEmptyPieces (splitWs false s) = wordStarts true s.
Proof.
  induction s as [|c r IH]; simpl; [reflexivity|].
  destruct (isWhiteSpace c) eqn:Ec.
  - unfold nonEmptyPieces in *. simpl.
    fold (nonEmptyPieces (splitWs true r)).
    now rewrite nonEmptyPieces_skipping.
  - rewrite wordStarts_after_space in IH.
    rewrite <- first_piece_starts_word in IH.
    destruct (splitWs false r) as [|p ps] eqn:Er.
    + now apply splitWs_not_nil in Er.
    + unfold nonEmptyPieces in *. simpl in *.
      destruct (String.eqb p ""); simpl in *; lia.
Qed.

Lemma wordStarts_zero s : wordStarts true s = 0 <-> trimStart s = EmptyString.
Proof.
  induction s as [|c r IH]; simpl; [tauto|].
  destruct (isWhiteSpace c); [exact IH|].
  split; [lia|discriminate].
Qed.

Lemma trimStart_head s :
  trimStart s = EmptyString \/ startsWord (trimStart s) = true.
Proof.
  induction s as [|c r IH]; simpl; [auto|].
  destruct (isWhiteSpace c) eqn:E; [exact IH|].
  right. simpl. now rewrite E.
Qed.

Lemma trim_empty_iff s : trim s = EmptyString <-> trimStart s = EmptyString.
Proof.
  unfold trim. split; [|now intros ->].
  destruct (trimStart_head s) as [H|H]; [auto|].
  destruct (trimStart s) as [|c r]; [auto|].
  simpl in *. apply negb_true_iff in H. rewrite H. discriminate.
Qed.

(** X2. The word count of a text, the number of non-empty pieces between
    runs of white space, is the number of places where a word starts; it
    is 0 exactly for the texts that trim to the empty string, and it never
    exceeds the length. *)
Theorem wordCount_counts_word_starts s :
  wordCount s = wordStarts true s /\
  (wordCount s = 0 <-> trim s = EmptyString) /\
  wordCount s <= String.length s.
Proof.
  assert (H : wordCount s = wordStarts true s)
    by apply nonEmptyPieces_wordStarts.
  split; [exact H|]. split.
  - rewrite H, wordStarts_zero, trim_empty_iff. tauto.
  - rewrite H. clear H. generalize true.
    induction s as [|c r IH]; intros b; simpl; [lia|].
    destruct (isWhiteSpace c).
    + specialize (IH true). lia.
    + specialize (IH false). destruct b; lia.
Qed.

End Words.

Section Completion.
Context {host : JsHost}.

Lemma orZero_not_NaN x : isNaN (orZero x) = false.
Proof.
  unfold orZero. destruct (PrimFloat.eqb x 0 || isNaN x) eqn:E.
  - reflexivity.
  - apply orb_false_iff in E. tauto.
Qed.

Lemma inferColumnType_NUMERIC_inv values :
  inferColumnType values = NUMERIC ->
  filter notMissing values <> [] /\
  forallb numericLooking (filter notMissing values) = true.
Proof.
  unfold inferColumnType.
  destruct (filter notMissing values) as [|v present] eqn:E;
    [discriminate|].
  cbv zeta. simpl length. simpl Nat.eqb. cbv iota.
  destruct (forallb numericLooking (v :: present)) eqn:En.
  - intros _. split; [discriminate|reflexivity].
  - destruct (forallb dateLooking (v :: present)); [discriminate|].
    match goal with |- context [if ?b then CATEGORICAL else TEXT] =>
      destruct b end; discriminate.
Qed.

Lemma inferColumnType_all_numeric values :
  values <> [] ->
  Forall (fun v => notMissing v = true /\ numericLooking v = true) values ->
  inferColumnType values = NUMERIC.
Proof.
  intros Hne Hall.
  assert (Hf : filter notMissing values = values).
  { clear Hne. induction Hall as [|v vs [Hv _] _ IH]; simpl; [reflexivity|].
    now rewrite Hv, IH. }
  assert (Hn : forallb numericLooking values = true).
  { apply forallb_forall. rewrite Forall_forall in Hall.
    intros v Hv. now apply Hall. }
  unfold inferColumnType. rewrite Hf, Hn.
  destruct values; [congruence|reflexivity].
Qed.

Lemma missingCountOf_filled fill values :
  isMissing fill = false ->
  missingCountOf (map (fun v => if isMissing v then fill else v) values) = 0.
Proof.
  intros Hf. unfold missingCountOf.
  induction values as [|v vs IH]; simpl; [reflexivity|].
  destruct (isMissing v) eqn:E; [rewrite Hf|rewrite E]; exact IH.
Qed.

Lemma missingCountOf_zero values :
  missingCountOf values = 0 -> Forall (fun v => isMissing v = false) values.
Proof.
  unfold missingCountOf. induction values as [|v vs IH]; simpl;
    [constructor|].
  destruct (isMissing v) eqn:E; [discriminate|]. intros H.
  constructor; auto.
Qed.

Lemma columnOf_after_turn st header :
  columnOf header (cleanedData (processColumn st header)) =
  if needsCleaning (analysisOf header (cleanedData st))
  then map (fun v => if isMissing v then fillOf header (cleanedData st) else v)
         (columnOf header (cleanedData st))
  else columnOf header (cleanedData st).
Proof.
  rewrite columnOf_processColumn_same, cleanedOf_spec.
  destruct (needsCleaning _); [apply columnOf_impute_same|reflexivity].
Qed.

(** A turn on a column without missing cells appends no action and
    leaves the column's cells. *)
Lemma turn_without_missing st header :
  missingCountOf (columnOf header (cleanedData st)) = 0 ->
  st_cleaningActions (processColumn st header) = st_cleaningActions st /\
  columnOf header (cleanedData (processColumn st header)) =
    columnOf header (cleanedData st).
Proof.
  intros H0.
  assert (Hn : needsCleaning (analysisOf header (cleanedData st)) = false).
  { unfold needsCleaning. now rewrite analysisOf_missingCount, H0. }
  split.
  - rewrite processColumn_spec. cbv zeta. simpl st_cleaningActions.
    now rewrite actionsOf_spec, Hn, app_nil_r.
  - now rewrite columnOf_after_turn, Hn.
Qed.

(** X3. The mean recorded for a column inferred NUMERIC is never NaN; it
    is 0 when the column has no numeric value at all, the division by zero
    being turned into 0. *)
Theorem recorded_mean_is_a_number header rows :
  type (analysisOf header rows) = NUMERIC ->
  exists m,
    mean (stats (analysisOf header rows)) = Some m /\
    isNaN m = false /\
    (numericValuesOf (columnOf header rows) = [] -> m = 0%float).
Proof.
  intros Ht. exists (meanOf (numericValuesOf (columnOf header rows))).
  split; [|split].
  - revert Ht. open_analysis; intros; try discriminate; reflexivity.
  - apply orZero_not_NaN.
  - intros ->. reflexivity.
Qed.

(** X4. After the turn of a column inferred NUMERIC no cell of the column
    is missing and the column is still inferred NUMERIC; a second turn on
    it appends no cleaning action and leaves the column's cells. *)
Theorem numeric_column_is_completed st header :
  inferColumnType (columnOf header (cleanedData st)) = NUMERIC ->
  let st' := processColumn st header in
  let st'' := processColumn st' header in
  missingCountOf (columnOf header (cleanedData st')) = 0 /\
  inferColumnType (columnOf header (cleanedData st')) = NUMERIC /\
  st_cleaningActions st'' = st_cleaningActions st' /\
  columnOf header (cleanedData st'') = columnOf header (cleanedData st').
Proof.
  intros Ht st' st''.
  set (values := columnOf header (cleanedData st)) in *.
  destruct (inferColumnType_NUMERIC_inv values Ht) as [Hne Hnum].
  assert (Hfill : fillOf header (cleanedData st)
                  = VNum (meanOf (numericValuesOf values))).
  { unfold fillOf. fold values. now rewrite Ht. }
  assert (Hcol := columnOf_after_turn st header). fold st' values in Hcol.
  assert (Hmc : missingCountOf (columnOf header (cleanedData st')) = 0).
  { rewrite Hcol. destruct (needsCleaning _) eqn:En.
    - apply missingCountOf_filled. now rewrite Hfill.
    - unfold needsCleaning in En.
      rewrite analysisOf_missingCount, analysisOf_type in En.
      fold values in En. rewrite Ht, andb_true_r in En.
      apply Nat.ltb_ge in En. lia. }
  split; [exact Hmc|]. split; [|now apply turn_without_missing].
  rewrite Hcol. destruct (needsCleaning _); [|exact Ht].
  apply inferColumnType_all_numeric.
  - destruct values; [simpl in Hne; congruence|discriminate].
  - rewrite Hfill. apply Forall_forall. intros v' Hv'.
    apply in_map_iff in Hv'. destruct Hv' as (v & <- & Hv).
    destruct (isMissing v) eqn:Em; [split; reflexivity|].
    assert (Hp : notMissing v = true)
      by (rewrite notMissing_isMissing, Em; reflexivity).
    split; [exact Hp|].
    rewrite forallb_forall in Hnum. apply Hnum.
    apply filter_In. split; assumption.
Qed.

Lemma kept_refl v : kept v v.
Proof. intros _. reflexivity. Qed.

Lemma Forall2_kept_refl vs : Forall2 kept vs vs.
Proof. induction vs; constructor; auto using kept_refl. Qed.

Lemma Forall2_kept_trans us vs ws :
  Forall2 kept us vs -> Forall2 kept vs ws -> Forall2 kept us ws.
Proof.
  intros H. revert ws. induction H as [|u v us vs Huv _ IH]; intros ws Hw.
  - inversion Hw. constructor.
  - inversion Hw as [|? w ? ws' Hvw Hrest]; subst. constructor; [|auto].
    intros Hu. specialize (Huv Hu). subst v. auto.
Qed.

Lemma Forall2_kept_fill fill vs :
  Forall2 kept vs (map (fun v => if isMissing v then fill else v) vs).
Proof.
  induction vs as [|v vs IH]; simpl; constructor; [|exact IH].
  intros Hv. now rewrite Hv.
Qed.

Lemma kept_processColumn st header k :
  ~ In k (dateColumns header ++ textColumns header) ->
  Forall2 kept (columnOf k (cleanedData st))
    (columnOf k (cleanedData (processColumn st header))).
Proof.
  intros Hk. destruct (string_dec k header) as [->|Hne].
  - rewrite columnOf_after_turn. destruct (needsCleaning _).
    + apply Forall2_kept_fill.
    + apply Forall2_kept_refl.
  - rewrite columnOf_processColumn_other by assumption.
    apply Forall2_kept_refl.
Qed.

Lemma synthesizedNames_cons h hs :
  synthesizedNames (h :: hs) =
  (dateColumns h ++ textColumns h) ++ synthesizedNames hs.
Proof. reflexivity. Qed.

Lemma kept_run headers st k :
  ~ In k (synthesizedNames headers) ->
  Forall2 kept (columnOf k (cleanedData st))
    (columnOf k (cleanedData (run headers st))).
Proof.
  revert st. induction headers as [|h hs IH]; intros st Hk.
  - apply Forall2_kept_refl.
  - rewrite synthesizedNames_cons, in_app_iff in Hk.
    eapply Forall2_kept_trans; [apply (kept_processColumn st h k); tauto|].
    apply (IH (processColumn st h)). tauto.
Qed.

(** X5. Over a whole run, under every key that is not one of the
    synthesized names of a header, a cell that was present in the clone of
    the parsed rows comes out with the value it had there. *)
Theorem present_cells_survive file startTime endTime report cleaned :
  processData file startTime endTime = Resolved (report, cleaned) ->
  exists rawData,
    parseCSV file = Resolved rawData /\
    forall k,
      ~ In k (synthesizedNames (firstRowKeys rawData)) ->
      Forall2 kept (columnOf k (deepCopy rawData)) (columnOf k cleaned).
Proof.
  intros H. apply processData_resolved in H.
  destruct H as (row0 & rest & _ & Hp & H). cbv zeta in H.
  destruct H as (-> & _).
  exists (row0 :: rest). split; [exact Hp|].
  intros k Hk. apply (kept_run (keys row0) (start (row0 :: rest)) k Hk).
Qed.

End Completion.

Section Uniques.
Context {host : JsHost}.

Lemma setAdd_strings seen s :
  setAdd (map VStr seen) (VStr s) = map VStr (strAdd seen s).
Proof.
  induction seen as [|t r IH]; simpl; [reflexivity|].
  destruct (String.eqb t s); simpl; [reflexivity|]. now rewrite IH.
Qed.

Lemma fold_setAdd_strings pool seen :
  fold_left setAdd (map VStr pool) (map VStr seen) =
  map VStr (fold_left strAdd pool seen).
Proof.
  revert seen. induction pool as [|s pool IH]; intros seen; simpl;
    [reflexivity|].
  now rewrite setAdd_strings, IH.
Qed.

Lemma In_strAdd seen s t : In t (strAdd seen s) <-> In t seen \/ t = s.
Proof.
  induction seen as [|u r IH]; simpl.
  - intuition congruence.
  - destruct (String.eqb u s) eqn:E; simpl.
    + apply String.eqb_eq in E. subst u. intuition congruence.
    + rewrite IH. tauto.
Qed.

Lemma NoDup_strAdd seen s : NoDup seen -> NoDup (strAdd seen s).
Proof.
  induction seen as [|u r IH]; simpl; intros H.
  - constructor; [tauto|constructor].
  - inversion H as [|? ? Hu Hr]; subst.
    destruct (String.eqb u s) eqn:E; [exact H|].
    apply String.eqb_neq in E. constructor; [|auto].
    rewrite In_strAdd. intuition congruence.
Qed.

Lemma In_fold_strAdd pool seen t :
  In t (fold_left strAdd pool seen) <-> In t seen \/ In t pool.
Proof.
  revert seen. induction pool as [|s pool IH]; intros seen; simpl;
    [tauto|].
  rewrite IH, In_strAdd. intuition congruence.
Qed.

Lemma NoDup_fold_strAdd pool seen :
  NoDup seen -> NoDup (fold_left strAdd pool seen).
Proof.
  revert seen. induction pool as [|s pool IH]; intros seen H; simpl;
    [exact H|].
  apply IH. now apply NoDup_strAdd.
Qed.

Lemma uniqueCount_distinct pool :
  uniqueCount pool = length (distinctStrings pool).
Proof.
  unfold uniqueCount, setSize, setOf, distinctStrings.
  change (@nil Value) with (map VStr []).
  now rewrite fold_setAdd_strings, length_map.
Qed.

Lemma NoDup_distinctStrings pool : NoDup (distinctStrings pool).
Proof. apply NoDup_fold_strAdd. constructor. Qed.

Lemma In_distinctStrings pool t : In t (distinctStrings pool) <-> In t pool.
Proof. unfold distinctStrings. rewrite In_fold_strAdd. simpl. tauto. Qed.

Lemma filter_all {B : Type} (p : B -> bool) (xs : list B) :
  Forall (fun x => p x = true) xs -> filter p xs = xs.
Proof.
  induction 1 as [|x xs Hx _ IH]; simpl; [reflexivity|].
  now rewrite Hx, IH.
Qed.

(** X6. The keys of the tally the mode is read from are as many as the
    distinct strings of the pool under which an assignment creates a
    property: all but the accessor names of [Object.prototype].  On a
    pool without such a name the unique count recorded, the size of the
    Set of the pool, is the number of keys of the tally; on every pool it
    is at least that number, at most the size of the pool, and at least 1
    when the pool is not empty. *)
Theorem unique_count_is_tally_size pool :
  length (keys (tally pool)) =
    uniqueCount (filter (fun s => negb (swallowed s)) pool) /\
  (Forall (fun s => swallowed s = false) pool ->
   uniqueCount pool = length (keys (tally pool))) /\
  length (keys (tally pool)) <= uniqueCount pool /\
  uniqueCount pool <= length pool /\
  (pool <> [] -> 1 <= uniqueCount pool).
Proof.
  assert (Hkeys : length (keys (tally pool)) =
                  uniqueCount (filter (fun s => negb (swallowed s)) pool)).
  { rewrite uniqueCount_distinct.
    apply Permutation_length, NoDup_Permutation;
      [apply NoDup_keys_tally|apply NoDup_distinctStrings|].
    intros t. rewrite In_distinctStrings, In_keys_tally, filter_In.
    now rewrite negb_true_iff. }
  split; [exact Hkeys|]. split; [|split; [|split]].
  - intros Hpool. rewrite Hkeys, filter_all; [reflexivity|].
    rewrite Forall_forall in Hpool |- *. intros s Hs.
    now rewrite (Hpool s Hs).
  - rewrite uniqueCount_distinct.
    apply NoDup_incl_length; [apply NoDup_keys_tally|].
    intros t Ht. apply In_distinctStrings. now apply In_keys_tally in Ht.
  - rewrite uniqueCount_distinct.
    apply NoDup_incl_length; [apply NoDup_distinctStrings|].
    intros t. apply In_distinctStrings.
  - intros Hne. rewrite uniqueCount_distinct.
    destruct pool as [|s pool]; [congruence|].
    assert (Hs : In s (distinctStrings (s :: pool)))
      by (apply In_distinctStrings; simpl; auto).
    destruct (distinctStrings (s :: pool)); [contradiction|simpl; lia].
Qed.

End Uniques.

Section Counts.
Context {host : JsHost}.

Lemma filter_missing_split values :
  length (filter isMissing values) + length (filter notMissing values)
  = length values.
Proof.
  induction values as [|v vs IH]; simpl; [reflexivity|].
  rewrite notMissing_isMissing. destruct (isMissing v); simpl; lia.
Qed.

Lemma inferColumnType_UNKNOWN_iff values :
  inferColumnType values = UNKNOWN <-> filter notMissing values = [].
Proof.
  unfold inferColumnType. split.
  - destruct (filter notMissing values) as [|v present]; [reflexivity|].
    cbv zeta. simpl length. simpl Nat.eqb. cbv iota.
    destruct (forallb numericLooking (v :: present)); [discriminate|].
    destruct (forallb dateLooking (v :: present)); [discriminate|].
    match goal with |- context [if ?b then CATEGORICAL else TEXT] =>
      destruct b end; discriminate.
  - intros ->. reflexivity.
Qed.

Lemma analysis_missing_bound header rows :
  let a := analysisOf header rows in
  missingCount a <= length rows /\
  (type a = UNKNOWN <-> missingCount a = length rows).
Proof.
  intros a. subst a.
  rewrite analysisOf_missingCount, analysisOf_type, inferColumnType_UNKNOWN_iff.
  unfold missingCountOf.
  assert (H := filter_missing_split (columnOf header rows)).
  unfold columnOf in *. rewrite length_map in H. split; [lia|].
  split.
  - intros E. rewrite E in H. simpl in H. lia.
  - intros E. destruct (filter notMissing _); [reflexivity|simpl in H; lia].
Qed.

Lemma missing_bound_run headers st :
  let P a :=
    missingCount a <= length (cleanedData st) /\
    (type a = UNKNOWN <-> missingCount a = length (cleanedData st)) in
  Forall P (st_columnAnalyses st) ->
  Forall P (st_columnAnalyses (run headers st)).
Proof.
  intros P H0. induction headers as [|h hs IH] using rev_ind; [exact H0|].
  rewrite run_snoc, processColumn_spec. cbv zeta. simpl st_columnAnalyses.
  apply Forall_app. split; [exact IH|]. constructor; [|constructor].
  subst P. cbv beta. rewrite <- (length_run hs st).
  apply analysis_missing_bound.
Qed.

(** X7. In a report no column has more missing cells than there are
    rows, and the columns in which every cell is missing are exactly the
    columns inferred UNKNOWN. *)
Theorem missing_count_bounded_by_rows file startTime endTime report cleaned :
  processData file startTime endTime = Resolved (report, cleaned) ->
  Forall
    (fun a =>
       missingCount a <= initialRows report /\
       (type a = UNKNOWN <-> missingCount a = initialRows report))
    (columnAnalyses report).
Proof.
  intros H. apply processData_resolved in H.
  destruct H as (row0 & rest & _ & _ & H). cbv zeta in H.
  destruct H as (_ & -> & _ & _ & _ & -> & _).
  assert (Hr := missing_bound_run (keys row0) (start (row0 :: rest))).
  cbv zeta in Hr. rewrite length_start in Hr. apply Hr. constructor.
Qed.

End Counts.

Section DateRows.
Context {host : JsHost}.

Lemma inferColumnType_DATE_inv values :
  inferColumnType values = DATE ->
  forallb dateLooking (filter notMissing values) = true.
Proof.
  unfold inferColumnType.
  destruct (filter notMissing values) as [|v present]; [discriminate|].
  cbv zeta. simpl length. simpl Nat.eqb. cbv iota.
  destruct (forallb numericLooking (v :: present)); [discriminate|].
  destruct (forallb dateLooking (v :: present)); [reflexivity|].
  match goal with |- context [if ?b then CATEGORICAL else TEXT] =>
    destruct b end; discriminate.
Qed.

(** A string that parses as a date is no accessor name: an assignment
    under it creates a property. *)
Lemma date_not_swallowed s :
  dateLooking (VStr s) = true -> swallowed s = false.
Proof.
  intros H. unfold swallowed.
  destruct (prototypeMember s) as [[text|text]|] eqn:E; try reflexivity.
  apply prototype_accessor_no_date in E. simpl in H. rewrite E in H.
  discriminate H.
Qed.

Lemma modeOf_In pool :
  ~ In EmptyString pool ->
  (exists s, In s pool /\ swallowed s = false) ->
  In (modeOf pool) pool.
Proof.
  intros Hempty (s & Hs & Hsw).
  apply (proj1 (In_keys_tally pool (modeOf pool))).
  apply modeOf_In_keys; [exact Hempty|]. intros E.
  assert (H : In s (keys (tally pool))) by (apply In_keys_tally; auto).
  rewrite E in H. exact H.
Qed.

Lemma missing_cell_counts values v :
  In v values -> isMissing v = true -> 0 < missingCountOf values.
Proof.
  intros Hin Hm. unfold missingCountOf.
  assert (H : In v (filter isMissing values)) by (apply filter_In; auto).
  destruct (filter isMissing values); [contradiction|simpl; lia].
Qed.

Lemma dateFeaturesRow_cells header row :
  isNaN (newDate (cell row header)) = false ->
  let t := newDate (cell row header) in
  let row' := dateFeaturesRow header row in
  cell row' header = cell row header /\
  cell row' (header ++ "_year")%string = VNum (getFullYear t) /\
  cell row' (header ++ "_month")%string = VNum (getMonth t + 1)%float /\
  cell row' (header ++ "_day")%string = VNum (getDate t).
Proof.
  intros Hv t row'. subst t row'. split.
  - apply cell_dateFeaturesRow_other. intros H.
    apply (header_not_synthesized header), in_or_app. auto.
  - unfold dateFeaturesRow. rewrite Hv. simpl negb. cbv iota.
    split; [|split].
    + rewrite !cell_assign_other
        by (intros E; apply append_inv_head in E; discriminate).
      apply cell_assign_same.
    + rewrite cell_assign_other
        by (intros E; apply append_inv_head in E; discriminate).
      apply cell_assign_same.
    + apply cell_assign_same.
Qed.

(** X8. In the turn of a column inferred DATE in which some date string
    is not blank, no row is skipped: after the turn every row holds a
    string that parses as a date under the header, and its [_year],
    [_month] and [_day] fields hold the parts of that date. *)
Theorem every_date_row_gets_parts st header :
  inferColumnType (columnOf header (cleanedData st)) = DATE ->
  stringValuesOf (columnOf header (cleanedData st)) <> [] ->
  Forall
    (fun row =>
       exists s,
         cell row header = VStr s /\
         isNaN (Date_parse s) = false /\
         cell row (header ++ "_year")%string
           = VNum (getFullYear (Date_parse s)) /\
         cell row (header ++ "_month")%string
           = VNum (getMonth (Date_parse s) + 1)%float /\
         cell row (header ++ "_day")%string
           = VNum (getDate (Date_parse s)))
    (cleanedData (processColumn st header)).
Proof.
  intros Ht Hpool.
  set (values := columnOf header (cleanedData st)) in *.
  assert (Hdates := inferColumnType_DATE_inv values Ht).
  rewrite forallb_forall in Hdates.
  assert (Hstrings : forall s, In s (stringValuesOf values) ->
                               dateLooking (VStr s) = true).
  { intros s Hs. apply stringValuesOf_In in Hs. destruct Hs as [Hin Htrim].
    apply Hdates, filter_In. split; [exact Hin|].
    apply notMissing_iff. repeat split; try discriminate.
    intros E. injection E as E. rewrite E in Htrim. now apply Htrim. }
  assert (Hmode : dateLooking (VStr (modeOf (stringValuesOf values))) = true).
  { apply Hstrings, modeOf_In; [apply stringValuesOf_not_empty|].
    destruct (stringValuesOf values) as [|s pool] eqn:Es; [congruence|].
    exists s. split; [now left|].
    apply date_not_swallowed, Hstrings. now left. }
  assert (Hcells : forall v,
             In v (columnOf header (cleanedOf header (cleanedData st))) ->
             dateLooking v = true).
  { rewrite cleanedOf_spec. destruct (needsCleaning _) eqn:En.
    - rewrite columnOf_impute_same. fold values. intros v' Hv'.
      apply in_map_iff in Hv'. destruct Hv' as (v & <- & Hv).
      destruct (isMissing v) eqn:Em.
      + unfold fillOf. fold values. rewrite Ht. exact Hmode.
      + apply Hdates, filter_In. split; [exact Hv|].
        now rewrite notMissing_isMissing, Em.
    - fold values. intros v Hv. destruct (isMissing v) eqn:Em.
      + exfalso. assert (H0 := missing_cell_counts values v Hv Em).
        unfold needsCleaning in En.
        rewrite analysisOf_missingCount, analysisOf_type in En.
        fold values in En. rewrite Ht, andb_true_r in En.
        apply Nat.ltb_ge in En. lia.
      + apply Hdates, filter_In. split; [exact Hv|].
        now rewrite notMissing_isMissing, Em. }
  destruct (engineer_of_processColumn st header) as [Hc _].
  cbv zeta in Hc. rewrite analysisOf_type in Hc. fold values in Hc.
  rewrite Ht in Hc. rewrite Hc. simpl fst.
  apply Forall_forall. intros row' Hrow'.
  apply in_map_iff in Hrow'. destruct Hrow' as (row & <- & Hrow).
  assert (Hd : dateLooking (cell row header) = true).
  { apply Hcells. exact (in_map (fun r => cell r header) _ _ Hrow). }
  destruct (cell row header) as [| |b|x|s] eqn:Ecell; try discriminate.
  simpl in Hd. apply negb_true_iff in Hd.
  assert (Hvalid : isNaN (newDate (cell row header)) = false)
    by (rewrite Ecell; exact Hd).
  destruct (dateFeaturesRow_cells header row Hvalid) as (H0 & H1 & H2 & H3).
  rewrite Ecell in H0, H1, H2, H3. simpl newDate in H1, H2, H3.
  exists s. auto.
Qed.

End DateRows.

Section TextRows.
Context {host : JsHost}.

(** X9. In the turn of a column inferred TEXT no cell of the column is
    changed and every row gets both metrics: [_length] is the length and
    [_word_count] the word count of the cell's text, the text of a falsy
    cell being empty; every other field of the row is as before and the
    row's keys are the old ones and the two names. *)
Theorem every_text_row_gets_metrics st header :
  inferColumnType (columnOf header (cleanedData st)) = TEXT ->
  let st' := processColumn st header in
  columnOf header (cleanedData st') = columnOf header (cleanedData st) /\
  length (cleanedData st') = length (cleanedData st) /\
  Forall2
    (fun row row' =>
       let v := cell row header in
       let text := String_ (if truthy v then v else VStr "") in
       cell row' (header ++ "_length")%string
         = VNum (ofNat (String.length text)) /\
       cell row' (header ++ "_word_count")%string
         = VNum (ofNat (wordCount text)) /\
       (forall k, ~ In k (textColumns header) ->
          lookup row' k = lookup row k) /\
       (forall k, In k (keys row') <->
          In k (keys row) \/ In k (textColumns header)))
    (cleanedData st) (cleanedData st').
Proof.
  intros Ht st'.
  destruct (engineer_of_processColumn st header) as [Hc _].
  cbv zeta in Hc. rewrite analysisOf_type, Ht, cleanedOf_spec in Hc.
  unfold needsCleaning in Hc. rewrite analysisOf_type, Ht in Hc.
  rewrite andb_false_r in Hc. simpl fst in Hc. fold st' in Hc.
  split; [|split].
  - subst st'. rewrite columnOf_processColumn_same, cleanedOf_spec.
    unfold needsCleaning. rewrite analysisOf_type, Ht.
    now rewrite andb_false_r.
  - rewrite Hc. apply length_map.
  - rewrite Hc. clear Hc Ht. generalize (cleanedData st) as rows.
    induction rows as [|row rows IH]; simpl; constructor; [|exact IH].
    assert (Hne : (header ++ "_length")%string
                  <> (header ++ "_word_count")%string)
      by (intros E; apply append_inv_head in E; discriminate).
    unfold textFeaturesRow. cbv zeta. split; [|split; [|split]].
    + rewrite cell_assign_other by exact Hne. apply cell_assign_same.
    + apply cell_assign_same.
    + intros k Hk. simpl in Hk.
      rewrite !lookup_assign_other; intuition congruence.
    + intros k. rewrite !In_keys_assign. simpl. intuition congruence.
Qed.

End TextRows.

Section Clone.

Lemma jsonCell_stable kv kv' :
  In kv' (jsonCell kv) -> jsonCell kv' = [kv'].
Proof.
  destruct kv as [k v]. unfold jsonCell. simpl.
  destruct v as [| |b|x|s]; simpl; try (intros [<-|[]]; reflexivity);
    try contradiction.
  destruct (PrimFloat.is_finite x) eqn:Ef; simpl;
    intros [<-|[]]; simpl; [|reflexivity].
  destruct (PrimFloat.eqb x 0) eqn:Ez.
  - reflexivity.
  - now rewrite Ef, Ez.
Qed.

Lemma jsonRow_stable row : jsonRow (jsonRow row) = jsonRow row.
Proof.
  unfold jsonRow.
  assert (H : forall l, (forall kv, In kv l -> jsonCell kv = [kv]) ->
                        flat_map jsonCell l = l).
  { induction l as [|kv l IH]; simpl; intros Hl; [reflexivity|].
    rewrite (Hl kv) by auto. simpl. f_equal. apply IH. auto. }
  apply H. intros kv' Hin. apply in_flat_map in Hin.
  destruct Hin as (kv & _ & Hin). eapply jsonCell_stable; eauto.
Qed.

(** X10. The deep copy keeps the number of rows; a copied row holds no
    undefined property and no number that is not finite, and its keys are
    keys of the parsed row; copying a copy changes nothing. *)
Theorem deepCopy_is_stable rows :
  deepCopy (deepCopy rows) = deepCopy rows /\
  length (deepCopy rows) = length rows /\
  Forall2
    (fun row copy =>
       incl (keys copy) (keys row) /\
       forall k v, In (k, v) copy ->
         v <> VUndefined /\
         (forall x, v = VNum x -> PrimFloat.is_finite x = true))
    rows (deepCopy rows).
Proof.
  split; [|split].
  - unfold deepCopy. rewrite map_map. apply map_ext. apply jsonRow_stable.
  - apply length_map.
  - induction rows as [|row rows IH]; simpl; constructor; [|exact IH].
    split.
    + intros k Hk. unfold keys, jsonRow in *. apply in_map_iff in Hk.
      destruct Hk as ([k' v'] & <- & Hin). apply in_flat_map in Hin.
      destruct Hin as ([k0 v0] & Hin0 & Hin). apply in_map_iff.
      exists (k0, v0). split; [|exact Hin0].
      unfold jsonCell in Hin. simpl in *.
      destruct v0 as [| |b|x|s]; simpl in Hin;
        try destruct (PrimFloat.is_finite x);
        simpl in Hin; intuition congruence.
    + intros k v Hin. unfold jsonRow in Hin. apply in_flat_map in Hin.
      destruct Hin as ([k0 v0] & _ & Hin). unfold jsonCell in Hin.
      simpl in Hin.
      destruct v0 as [| |b|x|s]; simpl in Hin; try contradiction;
        try (destruct Hin as [E|[]]; injection E as <- <-;
             split; [discriminate|discriminate]).
      destruct (PrimFloat.is_finite x) eqn:Ef; simpl in Hin;
        destruct Hin as [E|[]]; injection E as <- <-;
        (split; [discriminate|]).
      * intros y Hy. injection Hy as <-.
        destruct (PrimFloat.eqb x 0); [reflexivity|exact Ef].
      * discriminate.
Qed.

End Clone.

Section NumericStatistics.

Lemma sortInsert_perm x sorted : Permutation (sortInsert x sorted) (x :: sorted).
Proof.
  induction sorted as [|y r IH]; simpl; [reflexivity|].
  destruct (y - x <? 0)%float; [|reflexivity].
  rewrite IH. apply perm_swap.
Qed.

Lemma sortNumbers_perm xs : Permutation (sortNumbers xs) xs.
Proof.
  induction xs as [|x xs IH]; simpl; [reflexivity|].
  rewrite sortInsert_perm. now constructor.
Qed.

Lemma at_in_range {A : Type} (xs : list A) i :
  (0 <= i < Z.of_nat (length xs))%Z ->
  exists x, at_ xs i = Some x /\ In x xs.
Proof.
  intros [H0 H1]. unfold at_.
  destruct (i <? 0)%Z eqn:E; [apply Z.ltb_lt in E; lia|].
  destruct (nth_error xs (Z.to_nat i)) as [x|] eqn:En.
  - exists x. split; [reflexivity|]. eapply nth_error_In; eauto.
  - apply nth_error_None in En. lia.
Qed.

Lemma median_defined xs : median (numericStats xs) <> None.
Proof.
  unfold numericStats. cbv zeta. simpl median.
  destruct (Z.of_nat (length (sortNumbers xs)) mod 2 =? 0)%Z eqn:E;
    [discriminate|].
  apply Z.eqb_neq in E.
  destruct (at_in_range (sortNumbers xs)
              (Z.of_nat (length (sortNumbers xs)) / 2)) as (x & -> & _);
    [|discriminate].
  assert (0 < Z.of_nat (length (sortNumbers xs)))%Z.
  { destruct (sortNumbers xs); [exfalso; apply E; reflexivity|simpl; lia]. }
  split; [apply Z.div_pos; lia|apply Z.div_lt; lia].
Qed.

(** X11. The statistics of a column's numeric values are read from a
    rearrangement of those values: with at least one value the minimum and
    the maximum are values of the column and the median is defined; with
    none the minimum and the maximum are undefined, the median is NaN and
    the mean is 0. *)
Theorem numeric_statistics_extremes xs :
  Permutation (sortNumbers xs) xs /\
  (xs = [] ->
   min (numericStats xs) = None /\ max (numericStats xs) = None /\
   mean (numericStats xs) = Some 0%float /\
   exists m, median (numericStats xs) = Some m /\ isNaN m = true) /\
  (xs <> [] ->
   exists lo hi md,
     min (numericStats xs) = Some lo /\ In lo xs /\
     max (numericStats xs) = Some hi /\ In hi xs /\
     median (numericStats xs) = Some md).
Proof.
  assert (Hp := sortNumbers_perm xs).
  split; [exact Hp|]. split.
  - intros ->. repeat split. eexists. split; reflexivity.
  - intros Hne.
    assert (Hlen : (0 < Z.of_nat (length (sortNumbers xs)))%Z).
    { rewrite (Permutation_length Hp).
      destruct xs; [congruence|simpl; lia]. }
    destruct (at_in_range (sortNumbers xs) 0) as (lo & Hlo & Ilo); [lia|].
    destruct (at_in_range (sortNumbers xs)
                (Z.of_nat (length (sortNumbers xs)) - 1))
      as (hi & Hhi & Ihi); [lia|].
    destruct (median (numericStats xs)) as [md|] eqn:Hmd;
      [|now apply median_defined in Hmd].
    exists lo, hi, md. unfold numericStats. cbv zeta. simpl min. simpl max.
    repeat split; auto; eapply Permutation_in; eauto.
Qed.

End NumericStatistics.

(** ** Properties of the components *)

Section Chart.

Lemma chartInsert_perm x bars : Permutation (chartInsert x bars) (x :: bars).
Proof.
  induction bars as [|y r IH]; simpl; [reflexivity|].
  destruct (byMissingDescending y x <? 0)%Z; [|reflexivity].
  rewrite IH. apply perm_swap.
Qed.

Lemma chartSort_perm bars : Permutation (chartSort bars) bars.
Proof.
  induction bars as [|x bars IH]; simpl; [reflexivity|].
  rewrite chartInsert_perm. now constructor.
Qed.

Lemma chartInsert_sorted x bars :
  StronglySorted (fun a b => missingValues b <= missingValues a) bars ->
  StronglySorted (fun a b => missingValues b <= missingValues a)
    (chartInsert x bars).
Proof.
  induction 1 as [|y r Hr IH Hy]; simpl.
  - repeat constructor.
  - unfold byMissingDescending.
    destruct (Z.of_nat (missingValues x) - Z.of_nat (missingValues y) <? 0)%Z
      eqn:E.
    + apply Z.ltb_lt in E. constructor; [exact IH|].
      eapply Permutation_Forall; [symmetry; apply chartInsert_perm|].
      constructor; [lia|exact Hy].
    + apply Z.ltb_ge in E. constructor.
      * now constructor.
      * constructor; [lia|].
        eapply Forall_impl; [|exact Hy]. simpl. intros a Ha. lia.
Qed.

Lemma chartSort_sorted bars :
  StronglySorted (fun a b => missingValues b <= missingValues a)
    (chartSort bars).
Proof.
  induction bars as [|x bars IH]; simpl; [constructor|].
  now apply chartInsert_sorted.
Qed.

Lemma barsOfHeight_insert n x bars :
  barsOfHeight n (chartInsert x bars) = barsOfHeight n (x :: bars).
Proof.
  induction bars as [|y r IH]; simpl; [reflexivity|].
  unfold byMissingDescending.
  destruct (Z.of_nat (missingValues x) - Z.of_nat (missingValues y) <? 0)%Z
    eqn:E; [|reflexivity].
  apply Z.ltb_lt in E. unfold barsOfHeight in *. simpl in *. rewrite IH.
  destruct (missingValues x =? n) eqn:Ex; [|reflexivity].
  apply Nat.eqb_eq in Ex.
  destruct (missingValues y =? n) eqn:Ey; [|reflexivity].
  apply Nat.eqb_eq in Ey. lia.
Qed.

Lemma barsOfHeight_sort n bars :
  barsOfHeight n (chartSort bars) = barsOfHeight n bars.
Proof.
  induction bars as [|x bars IH]; simpl; [reflexivity|].
  rewrite barsOfHeight_insert. unfold barsOfHeight in *. simpl.
  now rewrite IH.
Qed.

(** X12. The chart shows one bar for each column with at least one
    missing cell and none for the others, ordered by missing count from
    the largest down, columns with equal counts staying in the report's
    order. *)
Theorem chart_bars_are_sorted data :
  let bars := map datumOf (filter (fun col => 0 <? missingCount col) data) in
  Permutation (chartData data) bars /\
  StronglySorted (fun a b => missingValues b <= missingValues a)
    (chartData data) /\
  Forall (fun d => 0 < missingValues d) (chartData data) /\
  forall n, barsOfHeight n (chartData data) = barsOfHeight n bars.
Proof.
  intros bars. unfold chartData. fold datumOf. fold bars.
  split; [apply chartSort_perm|]. split; [apply chartSort_sorted|].
  split; [|intros n; apply barsOfHeight_sort].
  eapply Permutation_Forall; [symmetry; apply chartSort_perm|].
  subst bars. apply Forall_forall. intros d Hd.
  apply in_map_iff in Hd. destruct Hd as (col & <- & Hcol).
  apply filter_In in Hcol. destruct Hcol as [_ Hcol].
  apply Nat.ltb_lt in Hcol. exact Hcol.
Qed.

Lemma sum_missing_zero (cols : list ColumnAnalysis) acc :
  fold_left (fun acc col => acc + missingCount col) cols acc = 0 <->
  acc = 0 /\ Forall (fun col => missingCount col = 0) cols.
Proof.
  revert acc. induction cols as [|col cols IH]; intros acc; simpl.
  - split; [auto|tauto].
  - rewrite IH. split.
    + intros [H0 H]. split; [lia|]. constructor; [lia|exact H].
    + intros [-> H]. inversion H; subst. split; [lia|assumption].
Qed.

(** X13. The chart gives way to the message that no missing values were
    found exactly when the number on the card "Missing Values Found" is
    0. *)
Theorem chart_empty_iff_nothing_missing report :
  chartIsEmpty (columnAnalyses report) = true <-> missingValuesFound report = 0.
Proof.
  unfold chartIsEmpty, missingValuesFound, chartData.
  rewrite sum_missing_zero.
  rewrite Nat.eqb_eq.
  rewrite (Permutation_length (chartSort_perm _)), length_map.
  split.
  - intros H. split; [reflexivity|].
    induction (columnAnalyses report) as [|col cols IH]; [constructor|].
    simpl in H. destruct (0 <? missingCount col) eqn:E;
      [discriminate|].
    apply Nat.ltb_ge in E. constructor; [lia|auto].
  - intros [_ H]. induction H as [|col cols Hc _ IH]; [reflexivity|].
    simpl. now rewrite Hc.
Qed.

End Chart.

Section Suggester.
Context {host : JsHost}.

(** X14. A model is suggested exactly for a selected column that the
    report holds and that is NUMERIC, then regression, or CATEGORICAL,
    then classification; clustering is never suggested; a model comes
    with a baseline algorithm and the absence of one with none; and a
    selection among the names of the report, the empty name apart, is
    always found. *)
Theorem suggestion_follows_type selectedColumn columnAnalyses :
  let s := suggestion selectedColumn columnAnalyses in
  (model s = Some REGRESSION <->
   selectedColumn <> EmptyString /\
   exists c, selected selectedColumn columnAnalyses = Some c /\
             type c = NUMERIC) /\
  (model s = Some CLASSIFICATION <->
   selectedColumn <> EmptyString /\
   exists c, selected selectedColumn columnAnalyses = Some c /\
             type c = CATEGORICAL) /\
  model s <> Some CLUSTERING /\
  (model s = None <-> modelName s = None) /\
  (selectedColumn <> EmptyString ->
   In selectedColumn (map name columnAnalyses) ->
   exists c, selected selectedColumn columnAnalyses = Some c /\
             name c = selectedColumn /\ In c columnAnalyses).
Proof.
  intros s. subst s. unfold suggestion, selected.
  destruct (String.eqb selectedColumn "") eqn:Es.
  - apply String.eqb_eq in Es. simpl.
    repeat split; try discriminate; try tauto; intros [H _]; congruence.
  - apply String.eqb_neq in Es.
    destruct (find (fun c => String.eqb (name c) selectedColumn) columnAnalyses)
      as [c|] eqn:Ef.
    + assert (Hc := find_some _ _ Ef). destruct Hc as [Hin Hname].
      apply String.eqb_eq in Hname.
      destruct (type c) eqn:Et;
        try destruct (uniqueValues (stats c)) as [[|[|[|n]]]|];
        simpl;
        (split; [|split; [|split; [|split]]]);
        try discriminate;
        try (split; [discriminate|intros (_ & c' & E & Ht); congruence]);
        try (split; [intros _; split; [exact Es|eauto]|reflexivity]);
        try (split; discriminate);
        try (split; reflexivity);
        try (intros _ _; eauto).
    + simpl. split; [|split; [|split; [|split]]].
      * split; [discriminate|intros (_ & c' & E & _); discriminate].
      * split; [discriminate|intros (_ & c' & E & _); discriminate].
      * discriminate.
      * tauto.
      * intros _ Hin. apply in_map_iff in Hin.
        destruct Hin as (c & Hname & Hin).
        assert (Hn := find_none _ _ Ef c Hin). simpl in Hn.
        rewrite Hname, String.eqb_refl in Hn. discriminate.
Qed.

End Suggester.

Section Table.
Context {host : JsHost}.

(** X15. The two statistics cells of the column table, for the analysis
    of any column: a NUMERIC column shows its mean and its median with two
    decimals; a CATEGORICAL or DATE column shows its mode, or N/A when the
    mode is the empty string, and its unique count with two decimals; a
    TEXT column shows N/A and its unique count with two decimals; an
    UNKNOWN column shows N/A twice. *)
Theorem table_cells_of_analysis header rows :
  let a := analysisOf header rows in
  let pool := stringValuesOf (columnOf header rows) in
  let uniques := VStr (toFixed2 (ofNat (uniqueCount pool))) in
  match type a with
  | NUMERIC =>
      exists m md,
        mean (stats a) = Some m /\ median (stats a) = Some md /\
        meanOrModeCell a = VStr (toFixed2 m) /\
        medianOrUniquesCell a = VStr (toFixed2 md)
  | CATEGORICAL | DATE =>
      meanOrModeCell a =
        VStr (if String.eqb (modeOf pool) "" then "N/A" else modeOf pool) /\
      medianOrUniquesCell a = uniques
  | TEXT => meanOrModeCell a = VStr "N/A" /\ medianOrUniquesCell a = uniques
  | UNKNOWN =>
      meanOrModeCell a = VStr "N/A" /\ medianOrUniquesCell a = VStr "N/A"
  end.
Proof.
  intros a pool uniques. subst a pool uniques.
  unfold meanOrModeCell, medianOrUniquesCell, analysisOf, analyzeAndClean,
    columnOf.
  cbv zeta.
  set (values := map (fun row => cell row header) rows).
  destruct (inferColumnType values);
    try destruct (0 <? missingCountOf values);
    cbn [fst snd type stats];
    try (split; reflexivity);
    try (cbn [modeStats mode mean median uniqueValues field nullish formatValue
              truthy];
         split; [|reflexivity];
         destruct (String.eqb (modeOf (stringValuesOf values)) "") eqn:E;
         [apply String.eqb_eq in E; rewrite E; reflexivity
         |simpl; reflexivity]).
  all: destruct (median (numericStats (numericValuesOf values))) as [md|] eqn:Hm;
    [|now apply median_defined in Hm];
    exists (meanOf (numericValuesOf values)), md;
    repeat split; try exact Hm; simpl; rewrite ?Hm; reflexivity.
Qed.

End Table.

Section Downloads.

Lemma prefix_append pattern post :
  String.prefix pattern (pattern ++ post) = true.
Proof.
  induction pattern as [|c p IH]; simpl; [now destruct post|].
  destruct (ascii_dec c c); [exact IH|congruence].
Qed.

Lemma prefix_split pattern s :
  String.prefix pattern s = true -> exists post, s = (pattern ++ post)%string.
Proof.
  revert s. induction pattern as [|c p IH]; intros s.
  - intros _. now exists s.
  - destruct s as [|d r]; simpl; [discriminate|].
    destruct (ascii_dec c d) as [<-|]; [|discriminate]. intros H.
    destruct (IH r H) as (post & ->). now exists post.
Qed.

Lemma substring_all s : substring 0 (String.length s) s = s.
Proof. induction s as [|c r IH]; simpl; [reflexivity|]. now rewrite IH. Qed.

Lemma substring_after pattern post :
  substring (String.length pattern)
    (String.length (pattern ++ post) - String.length pattern)
    (pattern ++ post) = post.
Proof.
  induction pattern as [|c p IH]; simpl.
  - rewrite Nat.sub_0_r. apply substring_all.
  - exact IH.
Qed.

Lemma replaceFirst_unfold pattern replacement s :
  replaceFirst pattern replacement s =
  if String.prefix pattern s
  then (replacement
        ++ substring (String.length pattern)
             (String.length s - String.length pattern) s)%string
  else
    match s with
    | EmptyString => EmptyString
    | String c r => String c (replaceFirst pattern replacement r)
    end.
Proof. destruct s; reflexivity. Qed.

Lemma replaceFirst_first pattern replacement pre post :
  (forall pre' post',
     String.length pre' < String.length pre ->
     (pre ++ pattern ++ post)%string <> (pre' ++ pattern ++ post')%string) ->
  replaceFirst pattern replacement (pre ++ pattern ++ post)
  = (pre ++ replacement ++ post)%string.
Proof.
  induction pre as [|c pre IH]; intros Hfirst.
  - simpl. rewrite replaceFirst_unfold, prefix_append, substring_after.
    reflexivity.
  - rewrite replaceFirst_unfold.
    destruct (String.prefix pattern (String c pre ++ pattern ++ post))
      eqn:E.
    + exfalso. apply prefix_split in E. destruct E as (post' & E).
      apply (Hfirst EmptyString post'); [simpl; lia|exact E].
    + simpl. f_equal. apply IH. intros pre' post' Hlen E'.
      apply (Hfirst (String c pre') post'); [simpl; lia|].
      simpl. now rewrite E'.
Qed.

Lemma replaceFirst_absent pattern replacement s :
  (forall pre post, s <> (pre ++ pattern ++ post)%string) ->
  replaceFirst pattern replacement s = s.
Proof.
  induction s as [|c r IH]; intros Habsent; rewrite replaceFirst_unfold.
  - destruct (String.prefix pattern EmptyString) eqn:E; [|reflexivity].
    exfalso. apply prefix_split in E. destruct E as (post & E).
    apply (Habsent EmptyString post). exact E.
  - destruct (String.prefix pattern (String c r)) eqn:E.
    + exfalso. apply prefix_split in E. destruct E as (post & E).
      apply (Habsent EmptyString post). exact E.
    + f_equal. apply IH. intros pre post E'.
      apply (Habsent (String c pre) post). simpl. now rewrite E'.
Qed.

(** X16. The report is downloaded under the file's name with its first
    ".csv" taken out, wherever that stands, between "report_" and ".html";
    a name without ".csv" is kept whole. *)
Theorem report_download_name report :
  (forall pre post,
     fileName report = (pre ++ ".csv" ++ post)%string ->
     (forall pre' post',
        String.length pre' < String.length pre ->
        fileName report <> (pre' ++ ".csv" ++ post')%string) ->
     reportDownloadName report = ("report_" ++ pre ++ post ++ ".html")%string) /\
  ((forall pre post, fileName report <> (pre ++ ".csv" ++ post)%string) ->
   reportDownloadName report = ("report_" ++ fileName report ++ ".html")%string).
Proof.
  unfold reportDownloadName. split.
  - intros pre post E Hfirst. rewrite E in *.
    rewrite replaceFirst_first by exact Hfirst. simpl.
    f_equal. f_equal. f_equal. f_equal. f_equal. f_equal. f_equal.
    clear. induction pre as [|c pre IH]; simpl; [reflexivity|].
    now rewrite IH.
  - intros Habsent. now rewrite replaceFirst_absent.
Qed.

End Downloads.

Section Application.

(** X17. In every state the application can reach, the report view is
    on only with a report and without an error message, the error view
    only with a message and without report or rows, and the upload and
    processing views without any of them; so the guard on the report never
    leaves the screen empty. *)
Theorem app_state_invariant app :
  reachable app ->
  match appState app with
  | REPORT_READY =>
      (exists r, report app = Some r) /\ error app = None
  | ERROR =>
      (exists message, error app = Some message) /\
      report app = None /\ app_cleanedData app = []
  | READY_TO_UPLOAD | PROCESSING =>
      report app = None /\ app_cleanedData app = [] /\ error app = None
  end /\
  renderContent app <> ShowNothing.
Proof.
  intros H.
  assert (Inv :
    match appState app with
    | REPORT_READY => (exists r, report app = Some r) /\ error app = None
    | ERROR => (exists message, error app = Some message) /\
               report app = None /\ app_cleanedData app = []
    | _ => report app = None /\ app_cleanedData app = [] /\ error app = None
    end).
  { induction H as [|app app' _ IH Hstep]; [simpl; auto|].
    destruct Hstep as [app Hv|app outcome Hv|app r rows Hv|app message Hv];
      simpl; auto.
    - unfold renderContent in Hv.
      destruct (appState app); try discriminate;
        [|destruct (report app); discriminate].
      tauto.
    - unfold renderContent in Hv.
      destruct (appState app); try discriminate;
        [|destruct (report app); discriminate].
      destruct IH as (Hr & Hc & He).
      destruct outcome as [[r rows]|err]; simpl; eauto. }
  split; [exact Inv|].
  unfold renderContent. destruct (appState app); try discriminate.
  destruct Inv as [[r ->] _]. discriminate.
Qed.

(** X18. After any number of firings of the interval the processing
    view shows the message at that number modulo six; it is always one of
    the six messages, never undefined, and the sequence repeats every six
    firings. *)
Theorem processing_message_cycles n :
  afterTicks n = (n mod 6, nth_error messages (n mod 6)) /\
  (exists message,
     snd (afterTicks n) = Some message /\ In message messages) /\
  afterTicks (n + 6) = afterTicks n.
Proof.
  assert (H : forall k,
             afterTicks k = (k mod 6, nth_error messages (k mod 6))).
  { induction k as [|k IH]; [reflexivity|].
    cbn [afterTicks]. rewrite IH. unfold tick. cbn [fst length messages].
    replace ((k mod 6 + 1) mod 6) with (S k mod 6); [reflexivity|].
    rewrite Nat.Div0.add_mod_idemp_l. f_equal. lia. }
  split; [apply H|]. split.
  - rewrite H. cbn [snd].
    destruct (nth_error messages (n mod 6)) as [message|] eqn:E.
    + exists message. split; [reflexivity|]. eapply nth_error_In; eauto.
    + apply nth_error_None in E. cbn [length messages] in E.
      assert (n mod 6 < 6) by (apply Nat.mod_upper_bound; lia). lia.
  - rewrite !H. replace ((n + 6) mod 6) with (n mod 6); [reflexivity|].
    replace (n + 6) with (n + 1 * 6) by lia.
    now rewrite Nat.Div0.mod_add.
Qed.

End Application.

Section NothingMissing.
Context {host : JsHost}.

Lemma no_missing_no_cleaning (cols : list ColumnAnalysis) :
  Forall (fun col => missingCount col = 0) cols ->
  filter needsCleaning cols = [].
Proof.
  induction 1 as [|a l Hz _ IH]; [reflexivity|].
  simpl. unfold needsCleaning at 1. rewrite Hz. exact IH.
Qed.

(** X19. When the card "Missing Values Found" of a report shows 0, the
    report lists no cleaning action. *)
Theorem nothing_missing_nothing_cleaned file startTime endTime report cleaned :
  processData file startTime endTime = Resolved (report, cleaned) ->
  missingValuesFound report = 0 ->
  cleaningActions report = [].
Proof.
  intros H H0. apply processData_resolved in H.
  destruct H as (row0 & rest & _ & _ & H). cbv zeta in H.
  destruct H as (_ & _ & _ & _ & _ & Ha & Hc & _).
  unfold missingValuesFound in H0. rewrite Ha in H0.
  apply sum_missing_zero in H0. destruct H0 as [_ H0].
  assert (Hr := actions_run (keys row0) (start (row0 :: rest)) eq_refl).
  rewrite <- Hc in Hr.
  rewrite (no_missing_no_cleaning _ H0) in Hr. simpl in Hr.
  destruct (cleaningActions report); [reflexivity|discriminate].
Qed.

End NothingMissing.

Section Columns.
Context {host : JsHost}.

Lemma length_keys_insertIndex {A} (o : Obj A) n k v :
  length (keys (insertIndex o n k v)) = S (length (keys o)).
Proof.
  induction o as [|[j y] o IH]; simpl; [reflexivity|].
  destruct (arrayIndex j) as [m|]; [destruct (m <? n)%N|]; simpl;
    rewrite ?IH; reflexivity.
Qed.

Lemma keepsKeys_assign (row : TableRow) k v : keepsKeys row (assign row k v).
Proof.
  split.
  - intros j Hj. apply In_keys_assign. auto.
  - unfold assign. destruct (lookup row k).
    + now rewrite keys_replace.
    + destruct (arrayIndex k).
      * rewrite length_keys_insertIndex. lia.
      * unfold keys. rewrite map_app, length_app. lia.
Qed.

Lemma keepsKeys_refl row : keepsKeys row row.
Proof. split; [apply incl_refl|lia]. Qed.

Lemma keepsKeys_trans r1 r2 r3 :
  keepsKeys r1 r2 -> keepsKeys r2 r3 -> keepsKeys r1 r3.
Proof.
  intros [H1 L1] [H2 L2]. split; [eapply incl_tran; eauto|lia].
Qed.

Lemma Forall2_keepsKeys_map f rows :
  (forall row, keepsKeys row (f row)) ->
  Forall2 keepsKeys rows (map f rows).
Proof. intros H. induction rows; simpl; constructor; auto. Qed.

Lemma Forall2_keepsKeys_refl rows : Forall2 keepsKeys rows rows.
Proof. induction rows; constructor; auto using keepsKeys_refl. Qed.

Lemma Forall2_keepsKeys_trans l1 l2 l3 :
  Forall2 keepsKeys l1 l2 -> Forall2 keepsKeys l2 l3 ->
  Forall2 keepsKeys l1 l3.
Proof.
  intros H. revert l3. induction H as [|a b l1 l2 Hab _ IH]; intros l3 H3.
  - inversion H3. constructor.
  - inversion H3; subst. constructor; [eapply keepsKeys_trans; eauto|auto].
Qed.

Lemma keepsKeys_processColumn st header :
  Forall2 keepsKeys (cleanedData st) (cleanedData (processColumn st header)).
Proof.
  rewrite processColumn_spec. cbv zeta. simpl cleanedData.
  apply Forall2_keepsKeys_trans with (cleanedOf header (cleanedData st)).
  - rewrite cleanedOf_spec. destruct (needsCleaning _).
    + apply Forall2_keepsKeys_map. intros row. unfold imputeRow.
      destruct (isMissing _);
        [apply keepsKeys_assign|apply keepsKeys_refl].
    + apply Forall2_keepsKeys_refl.
  - unfold engineer. destruct (type _); simpl fst;
      try apply Forall2_keepsKeys_refl;
      apply Forall2_keepsKeys_map; intros row.
    + unfold dateFeaturesRow. destruct (negb _); [|apply keepsKeys_refl].
      eapply keepsKeys_trans; [|apply keepsKeys_assign].
      eapply keepsKeys_trans; [|apply keepsKeys_assign].
      apply keepsKeys_assign.
    + unfold textFeaturesRow.
      eapply keepsKeys_trans; [|apply keepsKeys_assign].
      apply keepsKeys_assign.
Qed.

Lemma keepsKeys_run headers st :
  Forall2 keepsKeys (cleanedData st) (cleanedData (run headers st)).
Proof.
  revert st. induction headers as [|h hs IH]; intros st.
  - apply Forall2_keepsKeys_refl.
  - eapply Forall2_keepsKeys_trans; [apply (keepsKeys_processColumn st h)|].
    apply (IH (processColumn st h)).
Qed.

(** X20. No column is ever dropped: every cleaned row has all the keys
    of its clone, and the final column count of the report is at least
    the number of keys of the first cloned row. *)
Theorem no_column_is_dropped file startTime endTime report cleaned :
  processData file startTime endTime = Resolved (report, cleaned) ->
  exists rawData,
    parseCSV file = Resolved rawData /\
    Forall2 keepsKeys (deepCopy rawData) cleaned /\
    length (firstRowKeys (deepCopy rawData)) <= cleanedCols report.
Proof.
  intros H. apply processData_resolved in H.
  destruct H as (row0 & rest & _ & Hp & H). cbv zeta in H.
  destruct H as (-> & _ & _ & _ & -> & _).
  exists (row0 :: rest). split; [exact Hp|].
  assert (Hk := keepsKeys_run (keys row0) (start (row0 :: rest))).
  split; [exact Hk|].
  remember (cleanedData (run (keys row0) (start (row0 :: rest)))) as c.
  change (cleanedData (start (row0 :: rest)))
    with (jsonRow row0 :: deepCopy rest) in Hk.
  inversion Hk as [|r r' l l' [_ Hlen] _ E1 E2]. simpl. exact Hlen.
Qed.

End Columns.

Section UploadOutcome.
Context {host : JsHost}.

(** X21. What the application shows once an upload has settled: the
    report view with the report and the cleaned rows of [processData] when
    the parser gave rows and no error; otherwise the error view with the
    message of the rejection, which is the empty-dataset message for no
    rows, the prefixed first message of the parser for a listed error and
    the parser's own message for a raised one. *)
Theorem upload_shows_outcome file startTime endTime :
  let outcome := processData file startTime endTime in
  let app := uploadSettled (uploadStarted initialApp) outcome in
  match papa file with
  | Complete [] [] =>
      renderContent app =
        ShowError (Some "CSV file is empty or contains only headers.")
  | Complete (_ :: _) [] =>
      exists r rows,
        outcome = Resolved (r, rows) /\
        renderContent app = ShowReportView r rows
  | Complete _ (message :: _) =>
      renderContent app =
        ShowError (Some ("CSV Parsing Error: " ++ message)%string)
  | Failed message => renderContent app = ShowError (Some message)
  end.
Proof.
  intros outcome app. subst app outcome. unfold processData, parseCSV.
  destruct (papa file) as [[|row0 rest] [|message errors]|message]; simpl;
    try reflexivity.
  eexists. eexists. split; reflexivity.
Qed.

End UploadOutcome.

(** ** The further properties, on the reference host *)

(** X1, on three rows with a number, a date and a text column. *)
Lemma feature_log_of_mixed_rows :
  exists report cleaned,
    @processData RefHost.host (csv mixedRows) 0%float 1000%float
      = Resolved (report, cleaned) /\
    featureEngineering report =
    map featureInfoOf (filter engineered (columnAnalyses report)).
Proof. resolved_run (csv mixedRows) @feature_log_of_report. Defined.

(** X3, on the column [1, 2, "", 4]. *)
Lemma recorded_mean_of_scenarioA :
  type (@analysisOf RefHost.host "x" (singleColumn "x" scenarioA)) = NUMERIC /\
  exists m,
    mean (stats (@analysisOf RefHost.host "x" (singleColumn "x" scenarioA)))
      = Some m /\
    isNaN m = false /\
    (@numericValuesOf RefHost.host (columnOf "x" (singleColumn "x" scenarioA))
       = [] -> m = 0%float).
Proof.
  assert (Ht : type (@analysisOf RefHost.host "x" (singleColumn "x" scenarioA))
               = NUMERIC) by (vm_compute; reflexivity).
  split; [exact Ht|].
  exact (@recorded_mean_is_a_number RefHost.host "x"
           (singleColumn "x" scenarioA) Ht).
Defined.

(** X4, on the same column. *)
Lemma numeric_column_is_completed_scenarioA :
  let st := start (singleColumn "x" scenarioA) in
  let st' := @processColumn RefHost.host st "x" in
  let st'' := @processColumn RefHost.host st' "x" in
  @inferColumnType RefHost.host (columnOf "x" (cleanedData st)) = NUMERIC /\
  missingCountOf (columnOf "x" (cleanedData st')) = 0 /\
  @inferColumnType RefHost.host (columnOf "x" (cleanedData st')) = NUMERIC /\
  st_cleaningActions st'' = st_cleaningActions st' /\
  columnOf "x" (cleanedData st'') = columnOf "x" (cleanedData st').
Proof.
  intros st st' st''.
  assert (Ht : @inferColumnType RefHost.host (columnOf "x" (cleanedData st))
               = NUMERIC) by (vm_compute; reflexivity).
  split; [exact Ht|].
  exact (@numeric_column_is_completed RefHost.host st "x" Ht).
Defined.

(** X5, on the three mixed rows. *)
Lemma present_cells_survive_mixed_rows :
  exists report cleaned,
    @processData RefHost.host (csv mixedRows) 0%float 1000%float
      = Resolved (report, cleaned) /\
    exists rawData,
      @parseCSV (csv mixedRows) = Resolved rawData /\
      forall k,
        ~ In k (synthesizedNames (firstRowKeys rawData)) ->
        Forall2 kept (columnOf k (deepCopy rawData)) (columnOf k cleaned).
Proof. resolved_run (csv mixedRows) @present_cells_survive. Defined.

(** X7, on the three mixed rows. *)
Lemma missing_count_bounded_mixed_rows :
  exists report cleaned,
    @processData RefHost.host (csv mixedRows) 0%float 1000%float
      = Resolved (report, cleaned) /\
    Forall
      (fun a =>
         missingCount a <= initialRows report /\
         (type a = UNKNOWN <-> missingCount a = initialRows report))
      (columnAnalyses report).
Proof. resolved_run (csv mixedRows) @missing_count_bounded_by_rows. Defined.

(** X8, on the DATE column with a blank cell. *)
Lemma every_date_row_gets_parts_dates :
  let st := start (singleColumn "d" datesColumn) in
  @inferColumnType RefHost.host (columnOf "d" (cleanedData st)) = DATE /\
  stringValuesOf (columnOf "d" (cleanedData st)) <> [] /\
  Forall
    (fun row =>
       exists s,
         cell row "d" = VStr s /\
         isNaN (@Date_parse RefHost.host s) = false /\
         cell row "d_year" = VNum (@getFullYear RefHost.host (@Date_parse RefHost.host s)) /\
         cell row "d_month"
           = VNum (@getMonth RefHost.host (@Date_parse RefHost.host s) + 1)%float /\
         cell row "d_day" = VNum (@getDate RefHost.host (@Date_parse RefHost.host s)))
    (cleanedData (@processColumn RefHost.host st "d")).
Proof.
  intros st.
  assert (Ht : @inferColumnType RefHost.host (columnOf "d" (cleanedData st))
               = DATE) by (vm_compute; reflexivity).
  assert (Hp : stringValuesOf (columnOf "d" (cleanedData st)) <> [])
    by (vm_compute; discriminate).
  split; [exact Ht|]. split; [exact Hp|].
  exact (@every_date_row_gets_parts RefHost.host st "d" Ht Hp).
Defined.

(** X9, on the TEXT column of notes. *)
Lemma every_text_row_gets_metrics_notes :
  let st := start (singleColumn "note" notesColumn) in
  @inferColumnType RefHost.host (columnOf "note" (cleanedData st)) = TEXT /\
  columnOf "note" (cleanedData (@processColumn RefHost.host st "note"))
    = columnOf "note" (cleanedData st) /\
  length (cleanedData (@processColumn RefHost.host st "note"))
    = length (cleanedData st).
Proof.
  intros st.
  assert (Ht : @inferColumnType RefHost.host
                 (columnOf "note" (cleanedData st)) = TEXT)
    by (vm_compute; reflexivity).
  split; [exact Ht|].
  destruct (@every_text_row_gets_metrics RefHost.host st "note" Ht)
    as (Hc & Hl & _).
  split; [exact Hc|exact Hl].
Defined.

(** X16, on a name that holds ".csv" twice: the first is taken out, the
    extension stays. *)
Lemma report_download_name_twice :
  reportDownloadName (reportNamed "sales.csv.old.csv")
  = "report_sales.old.csv.html".
Proof.
  apply (proj1 (report_download_name (reportNamed "sales.csv.old.csv"))
           "sales" ".old.csv").
  - reflexivity.
  - intros pre' post' Hlen E. simpl in E, Hlen.
    do 5 (destruct pre' as [|? pre'];
          [simpl in E; discriminate E|simpl in Hlen]).
    lia.
Defined.

(** X17, on the state reached by uploading the column [1, 2, "", 4]. *)
Lemma app_state_invariant_after_upload :
  let outcome :=
    @processData RefHost.host (csv (singleColumn "x" scenarioA))
      0%float 1000%float in
  let app := uploadSettled (uploadStarted initialApp) outcome in
  reachable app /\
  appState app = REPORT_READY /\
  renderContent app <> ShowNothing.
Proof.
  intros outcome app.
  assert (Hr : reachable app).
  { eapply reachable_step; [eapply reachable_step; [apply reachable_initial|]|].
    - apply step_upload. reflexivity.
    - apply step_settle. reflexivity. }
  split; [exact Hr|]. split; [vm_compute; reflexivity|].
  exact (proj2 (app_state_invariant app Hr)).
Defined.

(** X19, on two rows without a missing cell. *)
Lemma nothing_missing_complete_rows :
  exists report cleaned,
    @processData RefHost.host (csv completeRows) 0%float 1000%float
      = Resolved (report, cleaned) /\
    missingValuesFound report = 0 /\
    cleaningActions report = [].
Proof.
  let v := eval vm_compute in
    (@processData RefHost.host (csv completeRows) 0%float 1000%float) in
  match v with
  | Resolved (?r, ?c) =>
      assert (H : @processData RefHost.host (csv completeRows) 0%float 1000%float
                  = Resolved (r, c)) by (vm_compute; reflexivity);
      assert (H0 : missingValuesFound r = 0) by (vm_compute; reflexivity);
      exists r, c; split; [exact H|]; split; [exact H0|];
      exact (@nothing_missing_nothing_cleaned RefHost.host
               (csv completeRows) _ _ r c H H0)
  end.
Defined.

(** X22, on the three mixed rows. *)
Lemma report_cleaning_actions_mixed_rows :
  exists report cleaned,
    @processData RefHost.host (csv mixedRows) 0%float 1000%float
      = Resolved (report, cleaned) /\
    map column (cleaningActions report) =
    map name (filter needsCleaning (columnAnalyses report)).
Proof. resolved_run (csv mixedRows) @report_cleaning_actions. Defined.

(** What the three mixed rows come out as. *)
Example mixed_rows_outcome :
  exists report,
    @processData RefHost.host (csv mixedRows) 0%float 1000%float =
    Resolved
      (report,
       [[("id", VNum 1); ("when", VStr "2021-05-01");
         ("note", VStr "first  row"); ("when_year", VNum 2021);
         ("when_month", VNum 5); ("when_day", VNum 1);
         ("note_length", VNum 10); ("note_word_count", VNum 2)];
        [("id", VNum (5 / 3)); ("when", VStr "2021-01-15");
         ("note", VStr " "); ("when_year", VNum 2021);
         ("when_month", VNum 1); ("when_day", VNum 15);
         ("note_length", VNum 1); ("note_word_count", VNum 0)];
        [("id", VNum 4); ("when", VStr "2021-01-15"); ("note", VNum 0);
         ("when_year", VNum 2021); ("when_month", VNum 1);
         ("when_day", VNum 15); ("note_length", VNum 0);
         ("note_word_count", VNum 0)]]) /\
    map type (columnAnalyses report) = [NUMERIC; DATE; TEXT] /\
    map missingCount (columnAnalyses report) = [1; 1; 0].
Proof. eexists. repeat split; vm_compute; reflexivity. Qed.

(** X20, on the three mixed rows. *)
Lemma no_column_is_dropped_mixed_rows :
  exists report cleaned,
    @processData RefHost.host (csv mixedRows) 0%float 1000%float
      = Resolved (report, cleaned) /\
    exists rawData,
      @parseCSV (csv mixedRows) = Resolved rawData /\
      Forall2 keepsKeys (deepCopy rawData) cleaned /\
      length (firstRowKeys (deepCopy rawData)) <= cleanedCols report.
Proof. resolved_run (csv mixedRows) @no_column_is_dropped. Defined.
